(** * Fold generation, walk-forward validation, trading metrics and the
      single-asset backtester of [bayesian-commodities-course/utils]

    A shallow embedding of [utils/backtesting.py] and of the trading
    and interval metrics of [utils/metrics.py].

    - Python [int] is [Z]; [//] is [Z.div] (both round towards minus
      infinity, the remainder takes the sign of the divisor); a zero
      divisor raises [ZeroDivisionError].
    - Python [float] and numpy [float64] are Rocq's primitive binary64
      [float]: every arithmetic operation below is the IEEE 754 one.
    - A function that can raise returns [result A]; what [except Exception]
      catches is decided by [is_Exception].
    - numpy arrays written by index are lists updated with [<[i:=v]>]. *)

From Stdlib Require Import ZArith Floats.
From stdpp Require Import base list strings pretty gmap sorting.

Set Warnings "-inexact-float".
Local Open Scope Z_scope.

(** ** Python exceptions and results *)

Module Py.

Inductive ExcClass : Type :=
  | ValueError | IndexError | KeyError | TypeError | ZeroDivisionError
  | RuntimeError | KeyboardInterrupt | SystemExit.

(** [KeyboardInterrupt] and [SystemExit] derive from [BaseException] only. *)
Definition is_Exception (c : ExcClass) : bool :=
  match c with
  | KeyboardInterrupt | SystemExit => false
  | _ => true
  end.

Record Exc : Type := mkExc { exc_class : ExcClass; exc_msg : string }.

Inductive result (A : Type) : Type :=
  | Ok (a : A)
  | Raise (e : Exc).
Arguments Ok {A} a.
Arguments Raise {A} e.

Definition bind {A B : Type} (r : result A) (k : A -> result B) : result B :=
  match r with
  | Ok a => k a
  | Raise e => Raise e
  end.

Definition is_ok {A : Type} (r : result A) : bool :=
  match r with Ok _ => true | Raise _ => false end.

(** [a // b] *)
Definition floordiv (a b : Z) : result Z :=
  if b =? 0 then Raise (mkExc ZeroDivisionError "integer division or modulo by zero")
  else Ok (a / b).

(** [range(n)] *)
Definition range (n : Z) : list Z := Z.of_nat <$> seq 0 (Z.to_nat n).

(** [range(a, n)] as list positions *)
Definition range_from (a n : nat) : list nat := seq a (n - a).

(** [xs[a:b]] for a list: negative bounds count from the end, and both
    bounds are clamped to the length. *)
Definition slice_bound (len i : Z) : Z :=
  if i <? 0 then Z.max (i + len) 0 else Z.min i len.

Definition slice {A : Type} (a b : Z) (xs : list A) : list A :=
  let len := Z.of_nat (length xs) in
  let lo := slice_bound len a in
  let hi := slice_bound len b in
  take (Z.to_nat (hi - lo)) (drop (Z.to_nat lo) xs).

(** [x is None], for a Python value that is [None] or an object. *)
Definition is_None {A : Type} (x : option A) : bool :=
  match x with
  | None => true
  | Some _ => false
  end.

End Py.

Import Py.

(** Sequencing of calls that may raise. *)
Notation "'let?' x := r 'in' k" := (Py.bind r (fun x => k))
  (at level 10, x name, r at level 100, k at level 200).

(** ** Time series splits *)

Module Folds.

Record TimeSeriesFold : Type := mkFold {
  fold_id : Z;
  train_start : Z;
  train_end : Z;
  test_start : Z;
  test_end : Z
}.

Definition not_enough_samples : Exc :=
  mkExc ValueError "Not enough samples for specified fold configuration".

(** [min_train_size] after the default has been filled in. *)
Definition default_min_train_size (n_samples n_folds : Z) (min_train_size : option Z)
  : result Z :=
  match min_train_size with
  | None => floordiv n_samples (n_folds + 1)
  | Some m => Ok m
  end.

Definition expanding_fold (min_train_size step test_size gap i : Z) : TimeSeriesFold :=
  let train_end := min_train_size + step * (i + 1) in
  let test_start := train_end + gap in
  let test_end := test_start + test_size in
  mkFold i 0 train_end test_start test_end.

Definition expanding_window_split
    (n_samples n_folds test_size : Z) (min_train_size : option Z) (gap : Z)
  : result (list TimeSeriesFold) :=
  let? min_train_size := default_min_train_size n_samples n_folds min_train_size in
  let total_test := n_folds * test_size in
  if min_train_size + total_test + gap * n_folds >? n_samples then
    Raise not_enough_samples
  else
    let remaining := n_samples - min_train_size - total_test - gap * n_folds in
    let step := if n_folds >? 1 then remaining / n_folds else 0 in
    Ok (expanding_fold min_train_size step test_size gap <$> range n_folds).

Definition rolling_step (n_samples n_folds train_size test_size gap : Z) : Z :=
  if n_folds >? 1 then (n_samples - train_size - test_size - gap) / (n_folds - 1) else 0.

(** The body of the [for] loop; [None] is the [break]. *)
Definition rolling_fold (n_samples step train_size test_size gap i : Z)
  : option TimeSeriesFold :=
  let train_start := step * i in
  let train_end := train_start + train_size in
  let test_start := train_end + gap in
  let test_end := Z.min (test_start + test_size) n_samples in
  if test_end >? n_samples then None
  else Some (mkFold i train_start train_end test_start test_end).

Fixpoint rolling_loop (n_samples step train_size test_size gap : Z) (idxs : list Z)
  : list TimeSeriesFold :=
  match idxs with
  | [] => []
  | i :: rest =>
      match rolling_fold n_samples step train_size test_size gap i with
      | None => []
      | Some f => f :: rolling_loop n_samples step train_size test_size gap rest
      end
  end.

Definition rolling_window_split (n_samples n_folds train_size test_size gap : Z)
  : list TimeSeriesFold :=
  let step := rolling_step n_samples n_folds train_size test_size gap in
  rolling_loop n_samples step train_size test_size gap (range n_folds).

Definition train_slice {A : Type} (f : TimeSeriesFold) (data : list A) : list A :=
  slice (train_start f) (train_end f) data.

Definition test_slice {A : Type} (f : TimeSeriesFold) (data : list A) : list A :=
  slice (test_start f) (test_end f) data.

Inductive Method : Type := Expanding | Rolling.

(** [create_folds] for an integer [test_size] (the type
    [WalkForwardValidator] declares for it): [int(test_size)] is then the
    identity.  The fractional and textual forms of [test_size] are not
    modelled. *)
Definition create_folds {A : Type} (data : list A) (method : Method)
    (n_folds test_size : Z) (train_size : option Z) (gap : Z)
  : result (list (list A * list A)) :=
  let n := Z.of_nat (length data) in
  let test_samples := test_size in
  let? folds := match method with
           | Expanding => expanding_window_split n n_folds test_samples None gap
           | Rolling =>
               let train_size := match train_size with
                                 | None => n / 2
                                 | Some t => t
                                 end in
               Ok (rolling_window_split n n_folds train_size test_samples gap)
           end in
  Ok ((fun f => (train_slice f data, test_slice f data)) <$> folds).

(** The test window a rolling fold asks for, before any clamping. *)
Definition requested_test_end (f : TimeSeriesFold) (test_size : Z) : Z :=
  test_start f + test_size.

Definition test_len (f : TimeSeriesFold) : Z := test_end f - test_start f.

End Folds.

(** ** The numpy operations the metrics and the backtester call *)

Module Np.
Local Open Scope float_scope.

#[global] Instance float_inhabited : Inhabited float := populate 0.

(** A length as a [float64]; array lengths are [npy_intp], below [2^63]. *)
Definition float_of_nat (n : nat) : float := of_uint63 (Uint63.of_Z (Z.of_nat n)).

(** A Python [int] as a [float64], for magnitudes below [2^63]. *)
Definition float_of_Z (z : Z) : float :=
  if (z <? 0)%Z then - of_uint63 (Uint63.of_Z (- z)) else of_uint63 (Uint63.of_Z z).

(** [np.sum]: the terms are added from the left, starting from 0.  numpy
    adds long arrays in blocks; the grouping changes the rounding only. *)
Definition sum (xs : list float) : float := foldl add 0 xs.

(** [np.mean] *)
Definition mean (xs : list float) : float := sum xs / float_of_nat (length xs).

(** [np.std] (population standard deviation, [ddof = 0]) *)
Definition std (xs : list float) : float :=
  let m := mean xs in
  sqrt (mean ((λ x, let d := x - m in d * d) <$> xs)).

(** [xs[~np.isnan(xs)]] *)
Definition dropna (xs : list float) : list float :=
  filter (λ x, is_nan x = false) xs.

(** [np.maximum] on scalars: a NaN operand is returned. *)
Definition maximum (a b : float) : float :=
  if is_nan a || (b <=? a) then a else b.

Fixpoint maximum_accumulate_from (acc : float) (xs : list float) : list float :=
  match xs with
  | [] => []
  | x :: rest => let acc' := maximum acc x in acc' :: maximum_accumulate_from acc' rest
  end.

(** [np.maximum.accumulate] *)
Definition maximum_accumulate (xs : list float) : list float :=
  match xs with
  | [] => []
  | x :: rest => x :: maximum_accumulate_from x rest
  end.

(** numpy's scan for [argmin]: [mp] is the least value so far, found at
    [min_ind]; the next element, at position [i], replaces it unless
    [x >= mp]; the scan stops at the first NaN. *)
Fixpoint argmin_from (mp : float) (min_ind i : nat) (xs : list float) : nat :=
  match xs with
  | [] => min_ind
  | x :: rest =>
      if negb (mp <=? x) then
        if is_nan x then i else argmin_from x i (S i) rest
      else argmin_from mp min_ind (S i) rest
  end.

Definition empty_sequence (what : string) : Exc :=
  mkExc ValueError ("attempt to get " +:+ what +:+ " of an empty sequence").

(** [np.argmin] *)
Definition argmin (xs : list float) : result nat :=
  match xs with
  | [] => Raise (empty_sequence "argmin")
  | x :: rest => Ok (if is_nan x then 0%nat else argmin_from x 0 1 rest)
  end.

Fixpoint argmax_from (mp : float) (max_ind i : nat) (xs : list float) : nat :=
  match xs with
  | [] => max_ind
  | x :: rest =>
      if negb (x <=? mp) then
        if is_nan x then i else argmax_from x i (S i) rest
      else argmax_from mp max_ind (S i) rest
  end.

(** [np.argmax] *)
Definition argmax (xs : list float) : result nat :=
  match xs with
  | [] => Raise (empty_sequence "argmax")
  | x :: rest => Ok (if is_nan x then 0%nat else argmax_from x 0 1 rest)
  end.

(** [np.clip] on a scalar: [minimum(maximum(x, lo), hi)], a NaN being
    returned as it is. *)
Definition clip (x lo hi : float) : float :=
  let y := if is_nan x then x else if lo <? x then x else lo in
  if is_nan y then y else if y <? hi then y else hi.

(** [(1 + xs).cumprod()], from the running product [acc]. *)
Fixpoint cumprod_from (acc : float) (xs : list float) : list float :=
  match xs with
  | [] => []
  | x :: rest => let acc' := acc * x in acc' :: cumprod_from acc' rest
  end.

Definition cumprod (xs : list float) : list float :=
  match xs with
  | [] => []
  | x :: rest => x :: cumprod_from x rest
  end.

End Np.

(** ** Trading performance metrics ([utils/metrics.py]) *)

Module Metrics.
Local Open Scope float_scope.

(** [x / k] for a Python [float] and a Python [int] *)
Definition float_div_int (x : float) (k : Z) : result float :=
  if (k =? 0)%Z then Raise (mkExc ZeroDivisionError "float division by zero")
  else Ok (x / Np.float_of_Z k).

Definition sharpe_ratio (returns : list float) (risk_free_rate : float)
    (periods_per_year : Z) : result float :=
  let returns := Np.dropna returns in
  if (length returns <? 2)%nat then Ok nan
  else
    let? rf := float_div_int risk_free_rate periods_per_year in
    let excess_returns := (λ r, r - rf) <$> returns in
    if Np.std returns <? 1e-10 then Ok 0
    else Ok (Np.mean excess_returns / Np.std returns
             * sqrt (Np.float_of_Z periods_per_year)).

Definition sortino_ratio (returns : list float) (risk_free_rate : float)
    (periods_per_year : Z) : result float :=
  let returns := Np.dropna returns in
  if (length returns <? 2)%nat then Ok nan
  else
    let? rf := float_div_int risk_free_rate periods_per_year in
    let excess_returns := (λ r, r - rf) <$> returns in
    let downside_returns := filter (λ r, (r <? 0) = true) returns in
    if (length downside_returns <? 2)%nat then
      Ok (if 0 <? Np.mean excess_returns then infinity else 0)
    else
      let downside_std := Np.std downside_returns in
      if downside_std <? 1e-10 then
        Ok (if 0 <? Np.mean excess_returns then infinity else 0)
      else Ok (Np.mean excess_returns / downside_std
               * sqrt (Np.float_of_Z periods_per_year)).

(** The drawdown series [(equity - running_max) / running_max]. *)
Definition drawdown_series (equity_curve : list float) : list float :=
  zip_with (λ e m, (e - m) / m) equity_curve (Np.maximum_accumulate equity_curve).

(** The result is [(max_dd, peak_idx, trough_idx)]; the indices, which are
    never negative, are natural numbers. *)
Definition max_drawdown (equity_curve : list float) : result (float * nat * nat) :=
  if (length equity_curve <? 2)%nat then Ok (0, 0%nat, 0%nat)
  else
    let drawdowns := drawdown_series equity_curve in
    let? trough_idx := Np.argmin drawdowns in
    let? peak_idx := Np.argmax (take (trough_idx + 1) equity_curve) in
    let max_dd := - (drawdowns !!! trough_idx) in
    Ok (max_dd, peak_idx, trough_idx).

(** [xs op ys] on one-dimensional arrays: equal lengths, or one operand
    of length 1 broadcast along the other. *)
Definition broadcast2 (f : float → float → float) (xs ys : list float)
  : result (list float) :=
  if (length xs =? length ys)%nat then Ok (zip_with f xs ys)
  else match xs, ys with
       | [x], _ => Ok (f x <$> ys)
       | _, [y] => Ok ((λ x, f x y) <$> xs)
       | _, _ =>
           Raise (mkExc ValueError
                    ("operands could not be broadcast together with shapes ("
                     +:+ pretty (length xs) +:+ ",) (" +:+ pretty (length ys) +:+ ",) "))
       end.

Definition mae (actual predicted : list float) : result float :=
  let? d := broadcast2 sub actual predicted in
  Ok (Np.mean (abs <$> d)).

Definition rmse (actual predicted : list float) : result float :=
  let? d := broadcast2 sub actual predicted in
  Ok (sqrt (Np.mean ((λ x, x * x) <$> d))).

Definition profit_factor (returns : list float) : float :=
  let gross_profit := Np.sum (filter (λ r, (0 <? r) = true) returns) in
  let gross_loss := - Np.sum (filter (λ r, (r <? 0) = true) returns) in
  if gross_loss <? 1e-10 then (if 0 <? gross_profit then infinity else 0)
  else gross_profit / gross_loss.

End Metrics.

(** ** Walk-forward validator *)

Module Validator.

(** The pandas operations [validate], [summary] and [get_all_predictions]
    call on a frame of predictions; pandas is not part of the repository,
    so they are the members of an interface. *)
Class Pandas (Row Idx Series Frame Summary : Type) : Type := {
  (** the index label of a row of the data *)
  index_label : Row → Idx;
  (** [test_data[target_col].values] *)
  target_values : list Row → result (list float);
  (** [pd.DataFrame({'prediction': p}, index=test_data.index)] *)
  frame_of_array : list float → list Row → result Frame;
  (** [s.to_frame('prediction')] *)
  series_to_frame : Series → Frame;
  (** [name in frame.columns] *)
  has_column : string → Frame → bool;
  (** [frame[name] = values] *)
  set_column : string → list float → Frame → result Frame;
  (** [frame[name].values] *)
  column_values : string → Frame → list float;
  (** [frame.iloc[:, 0].values] *)
  first_column_values : Frame → list float;
  (** [df = frame.copy(); df['fold'] = fold_id] *)
  tag_fold : Z → Frame → Frame;
  (** [pd.concat(dfs)] *)
  concat : list Frame → result Frame;
  (** mean, std, min, max and median of each metric over the folds *)
  describe : list (gmap string float) → Summary
}.

Section Validator.
Context {Row Idx Series Frame Summary Model : Type}.
Context `{!Pandas Row Idx Series Frame Summary}.

(** What [predict_func] may return. *)
Inductive Predictions : Type :=
  | PArray (p : list float)
  | PSeries (s : Series)
  | PFrame (f : Frame).

Definition MetricFn : Type := list float → list float → result float.

Record FoldResult : Type := mkFoldResult {
  fold_id : Z;
  train_start : Idx;
  train_end : Idx;
  test_start : Idx;
  test_end : Idx;
  predictions : Frame;
  metrics : gmap string float
}.

Record WalkForwardValidator : Type := mkValidator {
  n_folds : Z;
  test_size : Z;
  gap : Z;
  method : Folds.Method;
  train_size : option Z;
  refit : bool;
  results_ : list FoldResult
}.

Definition with_results (self : WalkForwardValidator) (rs : list FoldResult)
  : WalkForwardValidator :=
  mkValidator (n_folds self) (test_size self) (gap self) (method self)
    (train_size self) (refit self) rs.

Definition default_metric_funcs : list (string * MetricFn) :=
  [("MAE", Metrics.mae); ("RMSE", Metrics.rmse)].

Definition index_out_of_bounds : Exc :=
  mkExc IndexError "index 0 is out of bounds for axis 0 with size 0".

(** [data.index[0]] *)
Definition index_first (data : list Row) : result Idx :=
  match data with
  | [] => Raise index_out_of_bounds
  | r :: _ => Ok (index_label r)
  end.

(** [data.index[-1]] *)
Definition index_last (data : list Row) : result Idx :=
  match last data with
  | None => Raise index_out_of_bounds
  | Some r => Ok (index_label r)
  end.

(** The progress lines of one fold read both ends of both indices. *)
Definition print_fold_header (train_data test_data : list Row) : result unit :=
  let? _ := index_first train_data in
  let? _ := index_last train_data in
  let? _ := index_first test_data in
  let? _ := index_last test_data in
  Ok ().

(** "Ensure predictions is a DataFrame" and "Add actual values". *)
Definition to_frame (p : Predictions) (test_data : list Row) : result Frame :=
  let? predictions :=
    match p with
    | PArray a => frame_of_array a test_data
    | PSeries s => Ok (series_to_frame s)
    | PFrame f => Ok f
    end in
  if has_column "actual" predictions then Ok predictions
  else
    let? values := target_values test_data in
    set_column "actual" values predictions.

Definition failed_to_calculate (name : string) (e : Exc) : string :=
  "Failed to calculate " +:+ name +:+ ": " +:+ exc_msg e.

(** The loop over [metric_funcs.items()].  [metrics] is the dict being
    filled and [warns] the warnings issued so far; an exception that is
    not an [Exception] is not caught. *)
Fixpoint calculate_metrics (metric_funcs : list (string * MetricFn))
    (actual pred : list float) (metrics : gmap string float) (warns : list string)
  : result (gmap string float) * list string :=
  match metric_funcs with
  | [] => (Ok metrics, warns)
  | (name, func) :: rest =>
      match func actual pred with
      | Ok v => calculate_metrics rest actual pred (<[name := v]> metrics) warns
      | Raise e =>
          if is_Exception (exc_class e) then
            calculate_metrics rest actual pred (<[name := nan]> metrics)
              (warns ++ [failed_to_calculate name e])
          else (Raise e, warns)
      end
  end.

(** [predictions['actual'].values] *)
Definition actual_of (predictions : Frame) : list float :=
  column_values "actual" predictions.

(** [predictions['prediction'].values], or the first column when there is
    no such column. *)
Definition pred_of (predictions : Frame) : list float :=
  if has_column "prediction" predictions
  then column_values "prediction" predictions
  else first_column_values predictions.

(** One iteration of the loop over the folds: the value of [model]
    afterwards and the fold's result.  What [fit_func] returns, and so
    what [model] holds, is [None] or an object: a [fit_func] that returns
    [None] is called again on the next fold, whatever [refit] is. *)
Definition validate_fold (refit : bool)
    (fit_func : list Row → result (option Model))
    (predict_func : option Model → list Row → result Predictions)
    (metric_funcs : list (string * MetricFn)) (verbose : bool)
    (model : option Model) (i : nat) (train_data test_data : list Row)
    (warns : list string)
  : result (option Model * FoldResult) * list string :=
  let before_metrics : result (option Model * Frame) :=
    let? _ := if verbose then print_fold_header train_data test_data else Ok () in
    let? model := if refit || is_None model then fit_func train_data else Ok model in
    let? p := predict_func model test_data in
    let? predictions := to_frame p test_data in
    Ok (model, predictions) in
  match before_metrics with
  | Raise e => (Raise e, warns)
  | Ok (model, predictions) =>
      let actual := actual_of predictions in
      let pred := pred_of predictions in
      match calculate_metrics metric_funcs actual pred ∅ warns with
      | (Raise e, warns) => (Raise e, warns)
      | (Ok metrics, warns) =>
          (let? train_start := index_first train_data in
           let? train_end := index_last train_data in
           let? test_start := index_first test_data in
           let? test_end := index_last test_data in
           Ok (model, mkFoldResult (Z.of_nat i) train_start train_end
                        test_start test_end predictions metrics),
           warns)
      end
  end.

Fixpoint validate_loop (refit : bool)
    (fit_func : list Row → result (option Model))
    (predict_func : option Model → list Row → result Predictions)
    (metric_funcs : list (string * MetricFn)) (verbose : bool)
    (model : option Model) (i : nat) (folds : list (list Row * list Row))
    (results : list FoldResult) (warns : list string)
  : result (list FoldResult) * list string :=
  match folds with
  | [] => (Ok results, warns)
  | (train_data, test_data) :: rest =>
      match validate_fold refit fit_func predict_func metric_funcs verbose
              model i train_data test_data warns with
      | (Raise e, warns) => (Raise e, warns)
      | (Ok (model, r), warns) =>
          validate_loop refit fit_func predict_func metric_funcs verbose
            model (S i) rest (results ++ [r]) warns
      end
  end.

(** [validate]: the outcome, the warnings issued, and the validator
    afterwards ([results_] is assigned only when the loop completes). *)
Definition validate (self : WalkForwardValidator) (data : list Row)
    (fit_func : list Row → result (option Model))
    (predict_func : option Model → list Row → result Predictions)
    (metric_funcs : option (list (string * MetricFn))) (verbose : bool)
  : result (list FoldResult) * list string * WalkForwardValidator :=
  let metric_funcs := match metric_funcs with
                      | None => default_metric_funcs
                      | Some m => m
                      end in
  match Folds.create_folds data (method self) (n_folds self) (test_size self)
          (train_size self) (gap self) with
  | Raise e => (Raise e, [], self)
  | Ok folds =>
      match validate_loop (refit self) fit_func predict_func metric_funcs verbose
              None 0 folds [] [] with
      | (Raise e, warns) => (Raise e, warns, self)
      | (Ok results, warns) => (Ok results, warns, with_results self results)
      end
  end.

Definition no_results : Exc :=
  mkExc ValueError "No results available. Run validate() first.".

Definition summary (self : WalkForwardValidator)
  : result Summary * WalkForwardValidator :=
  match results_ self with
  | [] => (Raise no_results, self)
  | rs => (Ok (describe (metrics <$> rs)), self)
  end.

Definition get_all_predictions (self : WalkForwardValidator)
  : result Frame * WalkForwardValidator :=
  match results_ self with
  | [] => (Raise no_results, self)
  | rs => (concat ((λ r, tag_fold (fold_id r) (predictions r)) <$> rs), self)
  end.

(** A validator as [__init__] leaves it. *)
Definition init (n_folds test_size gap : Z) (method : Folds.Method)
    (train_size : option Z) (refit : bool) : WalkForwardValidator :=
  mkValidator n_folds test_size gap method train_size refit [].

End Validator.

Arguments Predictions : clear implicits.
Arguments FoldResult : clear implicits.
Arguments WalkForwardValidator : clear implicits.

End Validator.

(** ** Backtester *)

Module Backtest.
Local Open Scope float_scope.

(** The columns of the frame [run] returns. *)
Record Results : Type := mkResults {
  price : list float;
  signal : list float;
  position : list float;
  equity : list float;
  cash : list float;
  returns : list float;
  trades : list float;
  cumulative_return : list float;
  drawdown : list float
}.

Record Backtester : Type := mkBacktester {
  initial_capital : float;
  transaction_cost : float;
  slippage : float;
  results_ : option Results
}.

(** A backtester as [__init__] leaves it. *)
Definition init (initial_capital transaction_cost slippage : float) : Backtester :=
  mkBacktester initial_capital transaction_cost slippage None.

(** [f(signal, price, portfolio_value) -> size] *)
Definition PositionSizer : Type := float → float → float → float.

(** The five arrays the loop of [run] writes. *)
Record Arrays : Type := mkArrays {
  a_equity : list float;
  a_positions : list float;
  a_cash : list float;
  a_returns : list float;
  a_trades : list float
}.

(** [np.zeros(n)] *)
Definition zeros (n : nat) : list float := replicate n 0.

(** [signals.reindex(prices.index).fillna(0)], both series being indexed
    by position: a missing or NaN signal becomes 0. *)
Definition reindex_fillna (n : nat) (signals : list float) : list float :=
  (λ i, let s := default nan (signals !! i) in if is_nan s then 0 else s) <$> seq 0 n.

(** The body of [for i in range(1, n)]. *)
Definition step (self : Backtester) (prices signals : list float)
    (position_sizer : PositionSizer) (max_position : float)
    (st : Arrays) (i : nat) : Arrays :=
  let equity := a_equity st in
  let positions := a_positions st in
  let cash := a_cash st in
  let returns := a_returns st in
  let trades := a_trades st in
  let price := prices !!! i in
  let prev_price := prices !!! (i - 1)%nat in
  let signal := signals !!! (i - 1)%nat in
  let target_position := position_sizer signal price (equity !!! (i - 1)%nat) in
  let target_position := Np.clip target_position (- max_position) max_position in
  let position_change := target_position - positions !!! (i - 1)%nat in
  let '(positions, cash, trades) :=
    if 0.001 <? abs position_change then
      let execution_price :=
        if 0 <? position_change then price * (1 + slippage self)
        else price * (1 - slippage self) in
      let trade_value := abs (position_change * equity !!! (i - 1)%nat) in
      let trade_cost := trade_value * transaction_cost self in
      (<[i := target_position]> positions,
       <[i := cash !!! (i - 1)%nat - position_change * equity !!! (i - 1)%nat
              - trade_cost]> cash,
       <[i := 1]> trades)
    else
      (<[i := positions !!! (i - 1)%nat]> positions,
       <[i := cash !!! (i - 1)%nat]> cash,
       trades) in
  let position_value :=
    positions !!! i * equity !!! (i - 1)%nat * (price / prev_price) in
  let equity := <[i := cash !!! i + position_value]> equity in
  let returns := <[i := equity !!! i / equity !!! (i - 1)%nat - 1]> returns in
  mkArrays equity positions cash returns trades.

(** The five arrays of zeros after [equity[0]], [cash[0]] and
    [positions[0]] are written. *)
Definition initial_arrays (self : Backtester) (n : nat) : Arrays :=
  mkArrays (<[0%nat := initial_capital self]> (zeros n))
           (<[0%nat := 0]> (zeros n))
           (<[0%nat := initial_capital self]> (zeros n))
           (zeros n) (zeros n).

(** The arrays after the initialisation and the whole loop. *)
Definition simulate (self : Backtester) (prices signals : list float)
    (position_sizer : PositionSizer) (max_position : float) : Arrays :=
  let n := length prices in
  foldl (step self prices signals position_sizer max_position)
    (initial_arrays self n) (range_from 1 n).

(** [_calculate_drawdown] *)
Definition _calculate_drawdown (equity : list float) : list float :=
  zip_with (λ e m, (e - m) / m) equity (Np.maximum_accumulate equity).

Definition index_out_of_bounds : Exc :=
  mkExc IndexError "index 0 is out of bounds for axis 0 with size 0".

(** [run]: the frame returned, and the backtester afterwards.  On an
    empty price series the first write, [equity[0] = ...], raises. *)
Definition run (self : Backtester) (prices signals : list float)
    (position_sizer : option PositionSizer) (max_position : float)
  : result Results * Backtester :=
  let position_sizer := match position_sizer with
                        | None => λ s p v, s * max_position
                        | Some f => f
                        end in
  let signals := reindex_fillna (length prices) signals in
  match prices with
  | [] => (Raise index_out_of_bounds, self)
  | _ =>
      let st := simulate self prices signals position_sizer max_position in
      let results :=
        mkResults prices signals (a_positions st) (a_equity st) (a_cash st)
          (a_returns st) (a_trades st)
          ((λ c, c - 1) <$> Np.cumprod ((λ r, 1 + r) <$> a_returns st))
          (_calculate_drawdown (a_equity st)) in
      (Ok results,
       mkBacktester (initial_capital self) (transaction_cost self) (slippage self)
         (Some results))
  end.

Definition no_results : Exc :=
  mkExc ValueError "No results available. Run backtest first.".

(** [xs[-1]] of a non-empty array *)
Definition last_value (xs : list float) : float := default 0 (last xs).

(** [summary]; [pow] is the float power [**]. *)
Definition summary (pow : float → float → float) (self : Backtester)
  : result (list (string * float)) * Backtester :=
  match results_ self with
  | None => (Raise no_results, self)
  | Some results =>
      let returns := returns results in
      let equity := equity results in
      (let? dd := Metrics.max_drawdown equity in
       let max_dd := dd.1.1 in
       let? sharpe := Metrics.sharpe_ratio returns 0 252 in
       let? sortino := Metrics.sortino_ratio returns 0 252 in
       let growth := last_value equity / equity !!! 0%nat in
       Ok [("Total Return (%)", (growth - 1) * 100);
           ("Annual Return (%)",
            (pow growth (252 / Np.float_of_nat (length equity)) - 1) * 100);
           ("Annual Volatility (%)", Np.std returns * sqrt 252 * 100);
           ("Sharpe Ratio", sharpe);
           ("Sortino Ratio", sortino);
           ("Max Drawdown (%)", max_dd * 100);
           ("Win Rate (%)",
            Np.float_of_nat (length (filter (λ r, (0 <? r) = true) returns))
            / Np.float_of_nat (length returns) * 100);
           ("Profit Factor", Metrics.profit_factor returns);
           ("Total Trades", Np.sum (trades results));
           ("Final Equity", last_value equity)],
       self)
  end.

End Backtest.

(** ** A list-backed frame

    The simplest implementation of the [Pandas] interface, on which the
    validator can be run: a row is an index label with its target value,
    a frame a list of named columns. *)

Module ListFrame.
Import Validator.

Definition Row : Type := Z * float.
Definition Frame : Type := list (string * list float).

Definition frame_of_array (p : list float) (test_data : list Row) : result Frame :=
  if (length p =? length test_data)%nat then Ok [("prediction", p)]
  else Raise (mkExc ValueError "Length of values does not match length of index").

Fixpoint column (name : string) (f : Frame) : list float :=
  match f with
  | [] => []
  | (n, values) :: rest => if String.eqb n name then values else column name rest
  end.

#[global] Instance pandas : Pandas Row Z (list float) Frame (list (gmap string float)) := {|
  index_label r := r.1;
  target_values rows := Ok (snd <$> rows);
  Validator.frame_of_array := frame_of_array;
  series_to_frame s := [("prediction", s)];
  has_column name f := bool_decide (name ∈ f.*1);
  set_column name values f := Ok (f ++ [(name, values)]);
  column_values := column;
  first_column_values f := match f with [] => [] | c :: _ => c.2 end;
  tag_fold i f := f ++ [("fold", replicate (length (column "actual" f)) (Np.float_of_Z i))];
  concat fs := Ok (mjoin fs);
  describe ms := ms
|}.

(** Twelve observations 1.0, 2.0, ..., 12.0 labelled 0..11. *)
Definition sample_data : list Row :=
  (λ i, (i, Np.float_of_Z (i + 1))) <$> range 12.

(** A model that remembers the last training value and predicts it. *)
Definition sample_fit (train_data : list Row) : result (option float) :=
  Ok (Some (default 0%float (snd <$> last train_data))).

(** Without a model the prediction is 0. *)
Definition sample_predict (model : option float) (test_data : list Row)
  : result (Predictions (list float) Frame) :=
  Ok (PArray (replicate (length test_data) (default 0%float model))).

(** A metric function that always raises. *)
Definition failing_metric : MetricFn :=
  λ _ _, Raise (mkExc RuntimeError "metric failed").

Definition sample_metric_funcs : list (string * MetricFn) :=
  [("MAE", Metrics.mae); ("BAD", failing_metric); ("RMSE", Metrics.rmse)].

End ListFrame.

(** ** Cross-validation iterator ([TimeSeriesSplit]) *)

Module Splitter.

Record TimeSeriesSplit : Type := mkSplit {
  n_splits : Z;
  test_size : Z;
  gap : Z;
  method : Folds.Method;
  train_size : option Z
}.

(** [np.arange(a, b)] *)
Definition arange (a b : Z) : list Z :=
  (λ i, a + Z.of_nat i) <$> seq 0 (Z.to_nat (b - a)).

(** [self.train_size or d]: [None] and [0] are both replaced by [d]. *)
Definition train_size_or (train_size : option Z) (d : Z) : Z :=
  match train_size with
  | Some t => if t =? 0 then d else t
  | None => d
  end.

(** [split]: the pairs the generator yields, or the exception of the
    fold generation. *)
Definition split {A : Type} (self : TimeSeriesSplit) (X : list A)
  : result (list (list Z * list Z)) :=
  let n := Z.of_nat (length X) in
  let? folds :=
    match method self with
    | Folds.Expanding =>
        Folds.expanding_window_split n (n_splits self) (test_size self) None (gap self)
    | Folds.Rolling =>
        Ok (Folds.rolling_window_split n (n_splits self)
              (train_size_or (train_size self) (n / 2)) (test_size self) (gap self))
    end in
  Ok ((λ f, (arange (Folds.train_start f) (Folds.train_end f),
             arange (Folds.test_start f) (Folds.test_end f))) <$> folds).

Definition get_n_splits (self : TimeSeriesSplit) : Z := n_splits self.

End Splitter.

(** ** More on the list-backed frame *)

Module ListFrameMore.
Import Validator ListFrame.

(** A fit function that agrees with [sample_fit] on six training rows and
    raises on anything else. *)
Definition fit_six_rows_only (train_data : list Row) : result (option float) :=
  if (length train_data =? 6)%nat then sample_fit train_data
  else Raise (mkExc RuntimeError "unexpected training window").

(** A metric function interrupted from the keyboard. *)
Definition interrupted_metric : MetricFn :=
  λ _ _, Raise (mkExc KeyboardInterrupt "").

End ListFrameMore.

Section ValidatorResults.
Import Validator.
Context {Row Idx Series Frame Summary : Type}.
Context `{!Pandas Row Idx Series Frame Summary}.

(** A fold result carries the first and last index labels of the training
    and of the test rows of its fold. *)
Definition describes (r : FoldResult Idx Frame) (fold : list Row * list Row) : Prop :=
  index_first fold.1 = Ok (train_start r) ∧ index_last fold.1 = Ok (train_end r)
  ∧ index_first fold.2 = Ok (test_start r) ∧ index_last fold.2 = Ok (test_end r).

End ValidatorResults.

(** ** The trace of a backtest *)

Section BacktesterTrace.
Import Backtest.
Local Open Scope float_scope.

(** What the loop of [run] leaves at index [t] of its arrays: the return
    of the period, and either no trade (position and cash carried over)
    or a trade whose position change [d] passed the dead-band and whose
    value and proportional cost were taken from the cash. *)
Definition period_facts (transaction_cost : float) (st : Arrays) (t : nat) : Prop :=
  a_returns st !!! t = a_equity st !!! t / a_equity st !!! (t - 1)%nat - 1
  ∧ ((a_trades st !!! t = 0
      ∧ a_positions st !!! t = a_positions st !!! (t - 1)%nat
      ∧ a_cash st !!! t = a_cash st !!! (t - 1)%nat)
     ∨ (a_trades st !!! t = 1
        ∧ let d := a_positions st !!! t - a_positions st !!! (t - 1)%nat in
          (0.001 <? abs d) = true
          ∧ a_cash st !!! t
            = a_cash st !!! (t - 1)%nat - d * a_equity st !!! (t - 1)%nat
              - abs (d * a_equity st !!! (t - 1)%nat) * transaction_cost)).

(** What holds of the five arrays once the indices [1..k] are written. *)
Definition trace_invariant (self : Backtester) (n k : nat) (st : Arrays) : Prop :=
  (length (a_equity st) = n ∧ length (a_positions st) = n ∧ length (a_cash st) = n
   ∧ length (a_returns st) = n ∧ length (a_trades st) = n)
  ∧ (a_equity st !!! 0%nat = initial_capital self
     ∧ a_cash st !!! 0%nat = initial_capital self
     ∧ a_returns st !!! 0%nat = 0 ∧ a_trades st !!! 0%nat = 0)
  ∧ (∀ t, (k < t)%nat → a_trades st !!! t = 0)
  ∧ (∀ t, (1 ≤ t ≤ k)%nat → period_facts (transaction_cost self) st t).


End BacktesterTrace.

(** ** Interval forecasts ([utils/metrics.py]) *)

Module Intervals.
Import Metrics.
Local Open Scope float_scope.

(** [xs[i]] on a one-dimensional array, for [i >= 0] *)
Definition getitem (xs : list float) (i : nat) : result float :=
  match xs !! i with
  | Some x => Ok x
  | None =>
      Raise (mkExc IndexError
               ("index " +:+ pretty i +:+ " is out of bounds for axis 0 with size "
                +:+ pretty (length xs)))
  end.

Definition zero_division : Exc := mkExc ZeroDivisionError "float division by zero".

(** [2 / alpha] for a Python [float] *)
Definition two_over (alpha : float) : result float :=
  if alpha =? 0 then Raise zero_division else Ok (2 / alpha).

Definition interval_width (lower upper : list float) : result float :=
  let? d := broadcast2 sub upper lower in
  Ok (Np.mean d).

(** A one-dimensional array whose dtype is [float64] or [int64]. *)
Inductive Array : Type :=
  | FloatArray (xs : list float)
  | IntArray (zs : list Z).

(** An [int64] as a [float64], rounded to nearest. *)
Definition float_of_int64 (z : Z) : float :=
  if (z =? - 2 ^ 63)%Z then -9223372036854775808 else Np.float_of_Z z.

(** The elements as [float64]: what a comparison or a subtraction with a
    [float64] reads. *)
Definition values (a : Array) : list float :=
  match a with
  | FloatArray xs => xs
  | IntArray zs => float_of_int64 <$> zs
  end.

(** The body of [for i in range(len(actual))]: [width[i]] is read, and
    [2 / alpha] computed, only in the branch that needs them.  [actual]
    holds the elements as [float64]; [store] is what the assignment
    [scores[i] = v] makes of [v] for the dtype of [scores]. *)
Definition winkler_step {S : Type} (store : float → result S)
    (actual lower upper width : list float) (alpha : float)
    (scores : list S) (i : nat) : result (list S) :=
  let? a := getitem actual i in
  let? l := getitem lower i in
  if a <? l then
    let? w := getitem width i in
    let? c := two_over alpha in
    let? s := store (w + c * (l - a)) in
    Ok (<[i := s]> scores)
  else
    let? u := getitem upper i in
    if u <? a then
      let? w := getitem width i in
      let? c := two_over alpha in
      let? s := store (w + c * (a - u)) in
      Ok (<[i := s]> scores)
    else
      let? w := getitem width i in
      let? s := store w in
      Ok (<[i := s]> scores).

Fixpoint winkler_loop {S : Type} (store : float → result S)
    (actual lower upper width : list float) (alpha : float)
    (idxs : list nat) (scores : list S) : result (list S) :=
  match idxs with
  | [] => Ok scores
  | i :: rest =>
      let? scores := winkler_step store actual lower upper width alpha scores i in
      winkler_loop store actual lower upper width alpha rest scores
  end.

(** [winkler_score] for [float64] arrays [lower] and [upper] and an
    [actual] of dtype [float64] or [int64].  [scores = np.zeros_like(actual)]
    has the dtype of [actual]: into a [float64] array a score is stored as
    it is; into an [int64] array it is stored by [store_int64], numpy's
    conversion of a [float64] to an [int64] (truncation towards zero; what
    it does with a NaN, an infinity or a value out of range depends on the
    numpy version). *)
Definition winkler_score (store_int64 : float → result Z)
    (actual : Array) (lower upper : list float) (alpha : float)
  : result float :=
  let? width := broadcast2 sub upper lower in
  let n := length (values actual) in
  match actual with
  | FloatArray _ =>
      let? scores :=
        winkler_loop Ok (values actual) lower upper width alpha (seq 0 n)
          (replicate n 0) in
      Ok (Np.mean scores)
  | IntArray _ =>
      let? scores :=
        winkler_loop store_int64 (values actual) lower upper width alpha (seq 0 n)
          (replicate n 0%Z) in
      Ok (Np.mean (float_of_int64 <$> scores))
  end.

(** [actual[i]] lies outside [[lower[i], upper[i]]]. *)
Definition outside (actual lower upper : list float) (i : nat) : bool :=
  (actual !!! i <? lower !!! i) || (upper !!! i <? actual !!! i).

End Intervals.

(** ** Position sizers ([utils/backtesting.py]) *)

Module Sizers.
Local Open Scope float_scope.

(** [np.sign]: a NaN is returned as it is, either zero gives 0. *)
Definition sign (x : float) : float :=
  if 0 <? x then 1 else if x <? 0 then -1 else if x =? 0 then 0 else x.

(** [kelly_position_sizer] on Python floats; [pow] is the float power
    [**], which raises on overflow, and [/] raises on a zero divisor. *)
Definition kelly_position_sizer (pow : float → float → result float)
    (signal predicted_return predicted_std risk_free_rate max_leverage fraction : float)
  : result float :=
  if predicted_std <? 1e-10 then Ok 0
  else
    let? sq := pow predicted_std 2 in
    if sq =? 0 then Raise Intervals.zero_division
    else
      let kelly := (predicted_return - risk_free_rate) / sq in
      let position := kelly * fraction * sign signal in
      Ok (Np.clip position (- max_leverage) max_leverage).

End Sizers.

(** ** Order keys of binary64 values

    [<?] and [<=?] on floats are read through a key: three integers
    compared lexicographically (class, exponent, mantissa), the last two
    negated for a negative value.  NaN has no place in the order. *)

Definition key (x : spec_float) : Z * Z * Z :=
  match x with
  | S754_zero _ => (0, 0, 0)
  | S754_infinity false => (2, 0, 0)
  | S754_infinity true => (-2, 0, 0)
  | S754_nan => (0, 0, 0)
  | S754_finite false m e => (1, e, Z.pos m)
  | S754_finite true m e => (-1, - e, Z.neg m)
  end.

Definition klt (a b : Z * Z * Z) : Prop :=
  a.1.1 < b.1.1 ∨ (a.1.1 = b.1.1 ∧ (a.1.2 < b.1.2 ∨ (a.1.2 = b.1.2 ∧ a.2 < b.2))).

Definition keq (a b : Z * Z * Z) : Prop :=
  a.1.1 = b.1.1 ∧ a.1.2 = b.1.2 ∧ a.2 = b.2.

Definition kle (a b : Z * Z * Z) : Prop := klt a b ∨ keq a b.

Definition kopp (a : Z * Z * Z) : Z * Z * Z := (- a.1.1, - a.1.2, - a.2).

Definition kabs (a : Z * Z * Z) : Z * Z * Z :=
  if decide (a.1.1 < 0) then kopp a else a.

Definition fkey (x : float) : Z * Z * Z := key (Prim2SF x).

Definition not_nan (x : float) : Prop := Prim2SF x ≠ S754_nan.

(** ** Stated properties *)

Section BacktesterProperties.
Import Backtest.
Local Open Scope float_scope.

(** The arrays of a run all have the length of the price series. *)
Definition lengths_are (n : nat) (st : Arrays) : Prop :=
  length (a_equity st) = n ∧ length (a_positions st) = n ∧ length (a_cash st) = n.

(** The equity at [t] is the cash at [t] plus the position at [t] marked
    to market on the previous equity. *)
Definition equity_identity (prices : list float) (st : Arrays) (t : nat) : Prop :=
  a_equity st !!! t
  = a_cash st !!! t
    + a_positions st !!! t * a_equity st !!! (t - 1)%nat
      * (prices !!! t / prices !!! (t - 1)%nat).

(** What holds of the arrays once the indices [1..k] are written. *)
Definition run_invariant (prices : list float) (max_position : float)
    (k : nat) (st : Arrays) : Prop :=
  lengths_are (length prices) st
  ∧ a_positions st !!! 0%nat = 0
  ∧ (∀ t, (1 ≤ t ≤ k)%nat → equity_identity prices st t)
  ∧ ((0 <=? max_position) = true →
     ∀ t, (abs (a_positions st !!! t) <=? max_position) = true).

End BacktesterProperties.

(** The value recorded for a metric: what the function returns, NaN when
    it raises. *)
Definition metric_value (f : Validator.MetricFn) (actual pred : list float) : float :=
  match f actual pred with
  | Ok v => v
  | Raise _ => nan
  end.

(** The dict the loop over the metric functions builds when every raise is
    caught: each name bound to its [metric_value]. *)
Definition recorded (metric_funcs : list (string * Validator.MetricFn))
    (actual pred : list float) (metrics : gmap string float) : gmap string float :=
  foldl (λ m nf, <[nf.1 := metric_value nf.2 actual pred]> m) metrics metric_funcs.

(** Whatever a metric function raises is an instance of [Exception]. *)
Definition raises_only_Exception (metric_funcs : list (string * Validator.MetricFn))
  : Prop :=
  ∀ name f actual pred e,
    (name, f) ∈ metric_funcs → f actual pred = Raise e →
    is_Exception (exc_class e) = true.

(** The property stated for an accepted expanding configuration: [k]
    folds, each training from 0 and testing [gap] observations after its
    training end, no test window past [n], training ends ascending. *)
Definition expanding_post (n k gap : Z) (folds : list Folds.TimeSeriesFold) : Prop :=
  Z.of_nat (length folds) = k
  ∧ Forall (λ f, Folds.train_start f = 0
                 ∧ Folds.train_end f + gap = Folds.test_start f
                 ∧ Folds.test_end f ≤ n) folds
  ∧ StronglySorted Z.le (Folds.train_end <$> folds).

(** What [np.argmin] and [np.argmax] return, in words: the position of the
    first NaN if there is one, else the first position of the least
    (greatest) element. *)
Definition is_first_nan (xs : list float) (i : nat) : Prop :=
  is_nan (xs !!! i) = true ∧ ∀ j, (j < i)%nat → is_nan (xs !!! j) = false.

Definition is_first_min (xs : list float) (i : nat) : Prop :=
  (∀ j, (j < length xs)%nat → (xs !!! i <=? xs !!! j)%float = true)
  ∧ (∀ j, (j < i)%nat → (xs !!! i <? xs !!! j)%float = true).

Definition is_first_max (xs : list float) (i : nat) : Prop :=
  (∀ j, (j < length xs)%nat → (xs !!! j <=? xs !!! i)%float = true)
  ∧ (∀ j, (j < i)%nat → (xs !!! j <? xs !!! i)%float = true).

Definition is_argmin (xs : list float) (i : nat) : Prop :=
  (i < length xs)%nat
  ∧ (Forall (λ x, is_nan x = false) xs → is_first_min xs i)
  ∧ (Exists (λ x, is_nan x = true) xs → is_first_nan xs i).

Definition is_argmax (xs : list float) (i : nat) : Prop :=
  (i < length xs)%nat
  ∧ (Forall (λ x, is_nan x = false) xs → is_first_max xs i)
  ∧ (Exists (λ x, is_nan x = true) xs → is_first_nan xs i).

(** A return that is zero: [0.0] or [-0.0]. *)
Definition is_zero_return (r : float) : Prop := r = 0%float ∨ r = (-0)%float.

Section ValidatorProperties.
Import Validator.
Context {Row Idx Series Frame Summary Model : Type}.
Context `{!Pandas Row Idx Series Frame Summary}.

(** Two fold results that differ in their metrics at most. *)
Definition same_but_metrics (r r0 : FoldResult Idx Frame) : Prop :=
  fold_id r = fold_id r0
  ∧ train_start r = train_start r0 ∧ train_end r = train_end r0
  ∧ test_start r = test_start r0 ∧ test_end r = test_end r0
  ∧ predictions r = predictions r0.

(** Every registered metric has its value recorded in the fold result, NaN
    for one that raised, and each raise has its warning among [warns]. *)
Definition fold_metrics_recorded (metric_funcs : list (string * MetricFn))
    (warns : list string) (r : FoldResult Idx Frame) : Prop :=
  ∀ name f, (name, f) ∈ metric_funcs →
    let actual := actual_of (predictions r) in
    let pred := pred_of (predictions r) in
    metrics r !! name = Some (metric_value f actual pred)
    ∧ (∀ e, f actual pred = Raise e →
         metrics r !! name = Some nan ∧ failed_to_calculate name e ∈ warns).

(** The predictions of [r] are what [predict_func] returned on the test
    rows of a fold, made into a frame with its actual values, for a model
    that [fit_func] returned on one of the training sets [trains]. *)
Definition predicted_from (fit_func : list Row → result (option Model))
    (predict_func : option Model → list Row → result (Predictions Series Frame))
    (trains : list (list Row)) (test_data : list Row) (r : FoldResult Idx Frame)
  : Prop :=
  ∃ train_data model p,
    train_data ∈ trains ∧ fit_func train_data = Ok model
    ∧ predict_func model test_data = Ok p
    ∧ to_frame p test_data = Ok (predictions r).

(** [r] is the result of the fold at position [i] of [folds]: it carries
    that position and the index labels of the fold, and its predictions are
    those of the fold's test rows, from a model fitted on the fold's own
    training rows when [refit] is on, and on those of this or of an earlier
    fold when it is off. *)
Definition result_of_fold (refit : bool)
    (fit_func : list Row → result (option Model))
    (predict_func : option Model → list Row → result (Predictions Series Frame))
    (folds : list (list Row * list Row)) (i : nat) (r : FoldResult Idx Frame)
  : Prop :=
  ∃ train_data test_data,
    folds !! i = Some (train_data, test_data)
    ∧ fold_id r = Z.of_nat i
    ∧ describes r (train_data, test_data)
    ∧ predicted_from fit_func predict_func
        (if refit then [train_data] else (take (S i) folds).*1) test_data r.

(** No fold has an empty part, and [fit_func], [predict_func] and the
    frame building go through on every fold. *)
Definition folds_go_through (fit_func : list Row → result (option Model))
    (predict_func : option Model → list Row → result (Predictions Series Frame))
    (folds : list (list Row * list Row)) : Prop :=
  Forall (λ fold, fold.1 ≠ [] ∧ fold.2 ≠ []
                  ∧ (∃ model, fit_func fold.1 = Ok model)
                  ∧ ∀ model, ∃ p predictions,
                      predict_func model fold.2 = Ok p
                      ∧ to_frame p fold.2 = Ok predictions) folds.

End ValidatorProperties.

(** * Properties *)

(** ** Fold generator *)

Section FoldGenerator.
Import Folds.

Lemma length_range n : length (range n) = Z.to_nat n.
Proof. unfold range. by rewrite length_fmap, length_seq. Qed.

Lemma elem_of_range n i : i ∈ range n ↔ 0 ≤ i < n.
Proof.
  unfold range. rewrite list_elem_of_fmap. split.
  - intros (j & -> & Hj). apply elem_of_seq in Hj. lia.
  - intros Hi. exists (Z.to_nat i). split; [lia|]. apply elem_of_seq. lia.
Qed.

Lemma range_sorted n : StronglySorted Z.lt (range n).
Proof.
  unfold range. generalize 0%nat as a. induction (Z.to_nat n) as [|m IH]; intros a; simpl.
  - constructor.
  - constructor; [apply IH|].
    apply Forall_forall. intros x Hx. apply list_elem_of_fmap in Hx as (j & -> & Hj).
    apply elem_of_seq in Hj. lia.
Qed.

(** The clamp makes the guard of the [break] unsatisfiable. *)
Lemma rolling_fold_is_Some n step train_size test_size gap i :
  rolling_fold n step train_size test_size gap i
  = Some (mkFold i (step * i) (step * i + train_size) (step * i + train_size + gap)
            (Z.min (step * i + train_size + gap + test_size) n)).
Proof.
  unfold rolling_fold. cbv zeta.
  destruct (Z.gtb_spec (Z.min (step * i + train_size + gap + test_size) n) n); [lia|done].
Qed.

Lemma length_rolling_loop n step train_size test_size gap idxs :
  length (rolling_loop n step train_size test_size gap idxs) = length idxs.
Proof.
  induction idxs as [|i rest IH]; simpl; [done|].
  rewrite rolling_fold_is_Some. simpl. by rewrite IH.
Qed.

Lemma length_rolling_window_split n k train_size test_size gap :
  length (rolling_window_split n k train_size test_size gap) = Z.to_nat k.
Proof. unfold rolling_window_split. by rewrite length_rolling_loop, length_range. Qed.

(** C1. With one fold of 80 training and 30 test observations over 100
    samples the test window would end at 110.  The split does not drop the
    fold: it returns all [n_folds] folds, the one fold ending at 100 with
    20 test observations instead of 30; and for every configuration the
    number of folds returned is [n_folds], none is ever dropped. *)
Theorem rolling_window_split_clamps_instead_of_dropping :
  rolling_window_split 100 1 80 30 0 = [mkFold 0 0 80 80 100]
  ∧ requested_test_end (mkFold 0 0 80 80 100) 30 = 110
  ∧ test_len (mkFold 0 0 80 80 100) = 20
  ∧ ∀ n k train_size test_size gap,
      length (rolling_window_split n k train_size test_size gap) = Z.to_nat k.
Proof.
  split; [reflexivity|]. split; [reflexivity|]. split; [reflexivity|].
  apply length_rolling_window_split.
Qed.

Lemma expanding_window_split_Ok n k test_size mts gap m :
  default_min_train_size n k mts = Ok m →
  ¬ (m + k * test_size + gap * k > n) →
  expanding_window_split n k test_size mts gap
  = Ok (expanding_fold m
          (if k >? 1 then (n - m - k * test_size - gap * k) / k else 0)
          test_size gap <$> range k).
Proof.
  intros Hm Hle. unfold expanding_window_split. rewrite Hm. simpl.
  destruct (Z.gtb_spec (m + k * test_size + gap * k) n); [lia|done].
Qed.

Lemma expanding_window_split_Raise n k test_size mts gap m :
  default_min_train_size n k mts = Ok m →
  m + k * test_size + gap * k > n →
  expanding_window_split n k test_size mts gap = Raise not_enough_samples.
Proof.
  intros Hm Hgt. unfold expanding_window_split. rewrite Hm. simpl.
  destruct (Z.gtb_spec (m + k * test_size + gap * k) n); [done|lia].
Qed.

Lemma expanding_step_bounds n m k test_size gap :
  1 < k → m + k * test_size + gap * k ≤ n →
  let step := (n - m - k * test_size - gap * k) / k in
  0 ≤ step ∧ step * k ≤ n - m - k * test_size - gap * k.
Proof.
  intros Hk Hle step. subst step.
  set (r := n - m - k * test_size - gap * k).
  assert (0 ≤ r) by (unfold r; lia).
  split; [apply Z.div_pos; lia|].
  rewrite Z.mul_comm. apply Z.mul_div_le. lia.
Qed.

(** C3, as amended. For a fold count [k ≥ 0] and [test_size + gap ≥ 0], a
    configuration that is accepted yields exactly [k] folds; each has
    [train_start = 0] and [train_end + gap = test_start]; no [test_end]
    exceeds [n_samples]; the folds are in ascending order of [train_end]. *)
Theorem expanding_window_split_post n k test_size mts gap folds :
  0 ≤ k → 0 ≤ test_size + gap →
  expanding_window_split n k test_size mts gap = Ok folds →
  expanding_post n k gap folds.
Proof.
  intros Hk Hsz Hrun.
  destruct (default_min_train_size n k mts) as [m|e] eqn:Hm;
    [|unfold expanding_window_split in Hrun; by rewrite Hm in Hrun].
  destruct (decide (m + k * test_size + gap * k > n)) as [Hgt|Hle].
  { by rewrite (expanding_window_split_Raise _ _ _ _ _ _ Hm Hgt) in Hrun. }
  rewrite (expanding_window_split_Ok _ _ _ _ _ _ Hm Hle) in Hrun.
  injection Hrun as <-.
  set (step := if k >? 1 then _ else 0).
  assert (Hstep : 0 ≤ step ∧ step * k ≤ n - m - k * test_size - gap * k).
  { subst step. destruct (Z.gtb_spec k 1).
    - apply expanding_step_bounds; lia.
    - nia. }
  destruct Hstep as [Hstep0 Hstepk].
  split_and!.
  - rewrite length_fmap, length_range. lia.
  - apply Forall_fmap, Forall_forall. intros i Hi%elem_of_range. simpl.
    split_and!; [done|lia|nia].
  - rewrite <- list_fmap_compose.
    pose proof (range_sorted k) as Hs. induction Hs as [|i l Hs IH Hall]; simpl.
    + constructor.
    + constructor; [done|].
      apply Forall_fmap. eapply Forall_impl; [exact Hall|].
      simpl. intros j Hj. nia.
Qed.

Lemma expanding_window_split_post_witness :
  expanding_window_split 100 5 10 None 0
  = Ok [mkFold 0 0 22 22 32; mkFold 1 0 28 28 38; mkFold 2 0 34 34 44;
        mkFold 3 0 40 40 50; mkFold 4 0 46 46 56]
  ∧ expanding_post 100 5 0
      [mkFold 0 0 22 22 32; mkFold 1 0 28 28 38; mkFold 2 0 34 34 44;
       mkFold 3 0 40 40 50; mkFold 4 0 46 46 56].
Proof.
  split; [reflexivity|].
  apply (expanding_window_split_post 100 5 10 None 0); [lia|lia|reflexivity].
Defined.

(** C3, as stated, fails. A negative fold count is accepted and yields no
    fold at all; a negative test size is accepted and yields a test window
    past [n_samples]. *)
Lemma expanding_window_split_post_counterexample :
  (expanding_window_split 10 (-2) 1 None 0 = Ok []
   ∧ ¬ expanding_post 10 (-2) 0 [])
  ∧ (expanding_window_split 10 2 (-5) None 0
     = Ok [mkFold 0 0 11 11 6; mkFold 1 0 19 19 14]
     ∧ ¬ expanding_post 10 2 0 [mkFold 0 0 11 11 6; mkFold 1 0 19 19 14]).
Proof.
  split; (split; [reflexivity|]).
  - intros (Hlen & _). simpl in Hlen. lia.
  - intros (_ & Hall & _). apply Forall_cons in Hall as [_ Hall].
    apply Forall_cons in Hall as [(_ & _ & Hend) _]. simpl in Hend. lia.
Qed.

Lemma default_min_train_size_Ok n k mts :
  (mts = None → k ≠ -1) →
  default_min_train_size n k mts = Ok (default (n / (k + 1)) mts).
Proof.
  intros Hk. destruct mts as [m|]; [done|]. simpl. unfold floordiv.
  destruct (Z.eqb_spec (k + 1) 0) as [Heq|_]; [|done]. specialize (Hk eq_refl). lia.
Qed.

(** C7. Let [m] be [min_train_size], or [n_samples // (n_folds + 1)] when
    it is not given (which needs [n_folds ≠ -1]).  The split raises the
    configuration error, and so produces no fold, exactly when
    [m + n_folds * test_size + n_folds * gap > n_samples]; otherwise it
    returns folds and raises nothing. *)
Theorem expanding_window_split_error_iff n k test_size mts gap :
  (mts = None → k ≠ -1) →
  let m := default (n / (k + 1)) mts in
  (expanding_window_split n k test_size mts gap = Raise not_enough_samples
   ↔ m + k * test_size + k * gap > n)
  ∧ (¬ m + k * test_size + k * gap > n →
     ∃ folds, expanding_window_split n k test_size mts gap = Ok folds).
Proof.
  intros Hk m. pose proof (default_min_train_size_Ok n k mts Hk) as Hm. fold m in Hm.
  split; [split|].
  - intros Hr. destruct (decide (m + k * test_size + gap * k > n)) as [Hgt|Hle]; [lia|].
    by rewrite (expanding_window_split_Ok _ _ _ _ _ _ Hm Hle) in Hr.
  - intros Hgt. apply (expanding_window_split_Raise _ _ _ _ _ _ Hm). lia.
  - intros Hle. eexists. apply (expanding_window_split_Ok _ _ _ _ _ _ Hm). lia.
Qed.

Lemma expanding_window_split_error_iff_witness :
  (expanding_window_split 10 5 3 None 0 = Raise not_enough_samples
   ↔ 10 / (5 + 1) + 5 * 3 + 5 * 0 > 10)
  ∧ (¬ 10 / (5 + 1) + 5 * 3 + 5 * 0 > 10 →
     ∃ folds, expanding_window_split 10 5 3 None 0 = Ok folds).
Proof.
  apply (expanding_window_split_error_iff 10 5 3 None 0). intros _. lia.
Defined.

End FoldGenerator.


(** ** The order of binary64 values *)

Section FloatOrder.

Lemma SF_nan_dec (a : spec_float) : {a = S754_nan} + {a ≠ S754_nan}.
Proof. destruct a; by auto. Qed.

Lemma SFcompare_key a b :
  a ≠ S754_nan → b ≠ S754_nan →
  ∃ c, SFcompare a b = Some c
       ∧ match c with
         | Lt => klt (key a) (key b)
         | Eq => keq (key a) (key b)
         | Gt => klt (key b) (key a)
         end.
Proof.
  intros Ha Hb. unfold klt, keq.
  destruct a as [[]|[]| |[] ma ea], b as [[]|[]| |[] mb eb]; try done;
    simpl; try (eexists; split; [reflexivity|]; simpl; lia).
  - eexists; split; [reflexivity|].
    change (PosDef.Pos.compare_cont Eq ma mb) with (Pos.compare ma mb).
    destruct (Z.compare_spec ea eb); simpl; try lia.
    destruct (Pos.compare_spec ma mb); simpl; subst; lia.
  - eexists; split; [reflexivity|].
    change (PosDef.Pos.compare_cont Eq ma mb) with (Pos.compare ma mb).
    destruct (Z.compare_spec ea eb); simpl; try lia.
    destruct (Pos.compare_spec ma mb); simpl; subst; lia.
Qed.

Lemma is_nan_true x : is_nan x = true ↔ Prim2SF x = S754_nan.
Proof.
  unfold is_nan. rewrite FloatAxioms.eqb_spec. unfold SFeqb. split.
  - intros Hx. destruct (SF_nan_dec (Prim2SF x)) as [|Hn]; [done|].
    destruct (SFcompare_key _ _ Hn Hn) as (c & Hcmp & Hc). rewrite Hcmp in Hx.
    unfold klt in Hc. destruct c; [done|lia|lia].
  - by intros ->.
Qed.

Lemma is_nan_false x : is_nan x = false ↔ not_nan x.
Proof. unfold not_nan. rewrite <- is_nan_true. by destruct (is_nan x). Qed.

Lemma ltb_true x y : (x <? y)%float = true ↔ not_nan x ∧ not_nan y ∧ klt (fkey x) (fkey y).
Proof.
  rewrite FloatAxioms.ltb_spec. unfold SFltb, not_nan, fkey. split.
  - intros Hlt.
    destruct (SF_nan_dec (Prim2SF x)) as [Hx|Hx]; [by rewrite Hx in Hlt|].
    destruct (SF_nan_dec (Prim2SF y)) as [Hy|Hy];
      [rewrite Hy in Hlt; by destruct (Prim2SF x)|].
    destruct (SFcompare_key _ _ Hx Hy) as (c & Hc & Hk). rewrite Hc in Hlt.
    by destruct c.
  - intros (Hx & Hy & Hk).
    destruct (SFcompare_key _ _ Hx Hy) as (c & -> & Hc).
    unfold klt, keq in *. destruct c; [lia|done|lia].
Qed.

Lemma leb_true x y : (x <=? y)%float = true ↔ not_nan x ∧ not_nan y ∧ kle (fkey x) (fkey y).
Proof.
  rewrite FloatAxioms.leb_spec. unfold SFleb, not_nan, fkey, kle. split.
  - intros Hle.
    destruct (SF_nan_dec (Prim2SF x)) as [Hx|Hx]; [by rewrite Hx in Hle|].
    destruct (SF_nan_dec (Prim2SF y)) as [Hy|Hy];
      [rewrite Hy in Hle; by destruct (Prim2SF x)|].
    destruct (SFcompare_key _ _ Hx Hy) as (c & Hc & Hk). rewrite Hc in Hle.
    destruct c; [by auto|by auto|done].
  - intros (Hx & Hy & Hk).
    destruct (SFcompare_key _ _ Hx Hy) as (c & -> & Hc).
    unfold klt, keq in *. destruct c; [done|done|lia].
Qed.

(** On values that are not NaN, [x <=? y] fails exactly when [y <? x]. *)
Lemma leb_false x y :
  not_nan x → not_nan y → (x <=? y)%float = false ↔ klt (fkey y) (fkey x).
Proof.
  intros Hx Hy. destruct (x <=? y)%float eqn:Hle.
  - apply leb_true in Hle as (_ & _ & Hk). unfold kle, klt, keq in *. split; [done|lia].
  - split; [intros _|done].
    destruct (SFcompare_key _ _ Hx Hy) as (c & Hc & Hk).
    rewrite FloatAxioms.leb_spec in Hle. unfold SFleb in Hle. fold (fkey x) (fkey y) in Hk.
    rewrite Hc in Hle. by destruct c.
Qed.

Lemma ltb_false x y :
  not_nan x → not_nan y → (x <? y)%float = false ↔ kle (fkey y) (fkey x).
Proof.
  intros Hx Hy. destruct (x <? y)%float eqn:Hlt.
  - apply ltb_true in Hlt as (_ & _ & Hk). unfold kle, klt, keq in *. split; [done|lia].
  - split; [intros _|done].
    destruct (SFcompare_key _ _ Hx Hy) as (c & Hc & Hk).
    rewrite FloatAxioms.ltb_spec in Hlt. unfold SFltb in Hlt. fold (fkey x) (fkey y) in Hk.
    rewrite Hc in Hlt. unfold kle, klt, keq in *. destruct c; [lia|done|lia].
Qed.

Lemma not_nan_opp x : not_nan (- x) ↔ not_nan x.
Proof. unfold not_nan. rewrite FloatAxioms.opp_spec. by destruct (Prim2SF x). Qed.

Lemma fkey_opp x : fkey (- x) = kopp (fkey x).
Proof.
  unfold fkey, kopp. rewrite FloatAxioms.opp_spec.
  destruct (Prim2SF x) as [[]|[]| |[] ??]; simpl; by rewrite ?Z.opp_involutive.
Qed.

Lemma not_nan_abs x : not_nan (abs x) ↔ not_nan x.
Proof. unfold not_nan. rewrite FloatAxioms.abs_spec. by destruct (Prim2SF x). Qed.

Lemma fkey_abs x : fkey (abs x) = kabs (fkey x).
Proof.
  unfold fkey, kabs, kopp. rewrite FloatAxioms.abs_spec.
  destruct (Prim2SF x) as [[]|[]| |[] ??]; simpl; by rewrite ?Z.opp_involutive.
Qed.

(** The class of a key is one of five, and fixes the rest unless the value
    is finite and not zero. *)
Lemma fkey_class x :
  let k := fkey x in
  (k.1.1 = 0 ∧ k.1.2 = 0 ∧ k.2 = 0) ∨ (k.1.1 = 2 ∧ k.1.2 = 0 ∧ k.2 = 0)
  ∨ (k.1.1 = -2 ∧ k.1.2 = 0 ∧ k.2 = 0) ∨ (k.1.1 = 1 ∧ 0 < k.2) ∨ (k.1.1 = -1 ∧ k.2 < 0).
Proof. unfold fkey. destruct (Prim2SF x) as [[]|[]| |[] ??]; simpl; lia. Qed.

Lemma not_nan_sub_l x y : not_nan (x - y) → not_nan x.
Proof.
  unfold not_nan. rewrite FloatAxioms.sub_spec. intros Hs Hx. apply Hs.
  rewrite Hx. reflexivity.
Qed.

End FloatOrder.

(** Turns the float comparisons among the hypotheses and in the goal into
    statements on keys, and leaves linear arithmetic. *)
Ltac float_keys :=
  repeat match goal with
  | H : (_ <? _)%float = true |- _ =>
      apply (proj1 (ltb_true _ _)) in H; destruct H as (? & ? & ?)
  | H : (_ <=? _)%float = true |- _ =>
      apply (proj1 (leb_true _ _)) in H; destruct H as (? & ? & ?)
  | H : is_nan _ = false |- _ => apply (proj1 (is_nan_false _)) in H
  | H : not_nan (- _) |- _ => apply (proj1 (not_nan_opp _)) in H
  | H : not_nan (abs _) |- _ => apply (proj1 (not_nan_abs _)) in H
  | H : (?x <? ?y)%float = false, Hx : not_nan ?x, Hy : not_nan ?y |- _ =>
      apply (proj1 (ltb_false x y Hx Hy)) in H
  | H : (?x <=? ?y)%float = false, Hx : not_nan ?x, Hy : not_nan ?y |- _ =>
      apply (proj1 (leb_false x y Hx Hy)) in H
  end.

Ltac key_arith :=
  rewrite ?fkey_abs, ?fkey_opp in *;
  unfold kle, klt, keq, kabs, kopp in *;
  repeat case_decide; simpl in *; lia.

(** ** Backtester *)

Section BacktesterRun.
Import Backtest.
Local Open Scope float_scope.

Lemma clip_nan x lo hi : is_nan x = true → Np.clip x lo hi = x.
Proof. intros Hx. unfold Np.clip. by rewrite !Hx. Qed.

(** A clipped target that is not NaN lies within [±m], for [m ≥ 0]. *)
Lemma clip_abs_le x m :
  (0 <=? m) = true → not_nan (Np.clip x (- m) m) →
  (abs (Np.clip x (- m) m) <=? m) = true.
Proof.
  intros Hm Hr. pose proof (fkey_class x) as Hcx. pose proof (fkey_class m) as Hcm.
  assert (Hk0 : fkey 0 = (0, 0, 0)%Z) by reflexivity.
  apply leb_true in Hm as (_ & Hnm & Hm). rewrite Hk0 in Hm.
  assert (Hnm' : not_nan (- m)) by by apply not_nan_opp.
  revert Hr. unfold Np.clip.
  destruct (is_nan x) eqn:Hx.
  { rewrite Hx. intros Hr. apply (proj2 (is_nan_false x)) in Hr. congruence. }
  destruct (- m <? x) eqn:Hlo.
  - rewrite Hx. destruct (x <? m) eqn:Hhi; intros _; apply leb_true; float_keys.
    + split_and!; [by apply not_nan_abs|done|]. key_arith.
    + split_and!; [by apply not_nan_abs|done|]. key_arith.
  - rewrite (proj2 (is_nan_false (- m)) Hnm').
    destruct (- m <? m) eqn:Hhi; intros _; apply leb_true; float_keys.
    + split_and!; [by apply not_nan_abs, not_nan_opp|done|]. key_arith.
    + split_and!; [by apply not_nan_abs|done|]. key_arith.
Qed.

Section Simulate.
Context (self : Backtester) (prices signals : list float).
Context (position_sizer : PositionSizer) (max_position : float).

Local Abbreviation step' := (step self prices signals position_sizer max_position).

(** The loop of [run] over the indices [1..k]. *)
Lemma foldl_step_ind (P : nat → Arrays → Prop) (st0 : Arrays) (m : nat) :
  P 0%nat st0 →
  (∀ k st, (k < m)%nat → P k st → P (S k) (step' st (S k))) →
  P m (foldl step' st0 (seq 1 m)).
Proof.
  intros H0 Hstep. induction m as [|m IH]; [done|].
  rewrite seq_S, foldl_app. simpl. apply Hstep; [lia|].
  apply IH. intros k st Hk. apply Hstep. lia.
Qed.

Lemma step_lengths n st i : lengths_are n st → lengths_are n (step' st i).
Proof.
  intros (He & Hp & Hc). unfold lengths_are, step', step.
  destruct (0.001 <? _); simpl; by rewrite !length_insert.
Qed.

(** Iteration [i] writes position [i] of each array and nothing else. *)
Lemma step_frame st i t :
  t ≠ i →
  a_equity (step' st i) !!! t = a_equity st !!! t
  ∧ a_positions (step' st i) !!! t = a_positions st !!! t
  ∧ a_cash (step' st i) !!! t = a_cash st !!! t.
Proof.
  intros Ht. unfold step', step.
  destruct (0.001 <? _); simpl; by rewrite !list_lookup_total_insert_ne.
Qed.

Lemma step_equity_identity n st i :
  lengths_are n st → (1 ≤ i < n)%nat → equity_identity prices (step' st i) i.
Proof.
  intros (He & Hp & Hc) Hi. unfold equity_identity, step', step.
  destruct (0.001 <? _); simpl;
    rewrite !list_lookup_total_insert_eq by lia;
    rewrite !list_lookup_total_insert_ne by lia; done.
Qed.

(** The position written at [i] is the previous one, or the clipped
    target when the change passes the dead-band, which a NaN never does. *)
Lemma step_position n st i :
  lengths_are n st → (i < n)%nat →
  a_positions (step' st i) !!! i = a_positions st !!! (i - 1)%nat
  ∨ ∃ target, a_positions (step' st i) !!! i = Np.clip target (- max_position) max_position
              ∧ not_nan (Np.clip target (- max_position) max_position).
Proof.
  intros (He & Hp & Hc) Hi. unfold step', step.
  destruct (0.001 <? _) eqn:Htrade; simpl;
    rewrite !list_lookup_total_insert_eq by lia; [right|by left].
  eexists. split; [done|].
  apply ltb_true in Htrade as (_ & Hn & _).
  by apply not_nan_abs, not_nan_sub_l in Hn.
Qed.

Lemma simulate_eq :
  simulate self prices signals position_sizer max_position
  = foldl step' (initial_arrays self (length prices)) (seq 1 (length prices - 1)).
Proof. done. Qed.

Lemma zeros_lookup n t : zeros n !!! t = 0.
Proof.
  unfold zeros. destruct (decide (t < n)%nat).
  - by apply lookup_total_replicate_2.
  - rewrite list_lookup_total_alt, (proj1 (lookup_replicate_None _ _ _)); [done|lia].
Qed.

Lemma initial_positions_lookup n t : a_positions (initial_arrays self n) !!! t = 0.
Proof.
  simpl. destruct (decide (t = 0)%nat) as [->|].
  - destruct n; [done|]. apply list_lookup_total_insert_eq.
    unfold zeros. rewrite length_replicate. lia.
  - rewrite list_lookup_total_insert_ne by done. apply zeros_lookup.
Qed.

Lemma simulate_invariant :
  run_invariant prices max_position (length prices - 1)
    (simulate self prices signals position_sizer max_position).
Proof.
  rewrite simulate_eq. apply foldl_step_ind.
  - split_and!.
    + unfold lengths_are, initial_arrays, zeros. cbn [a_equity a_positions a_cash].
      by rewrite !length_insert, !length_replicate.
    + apply initial_positions_lookup.
    + intros t Ht. lia.
    + intros Hm t. by rewrite initial_positions_lookup.
  - intros k st Hk (Hlen & H0 & Heq & Hb). split_and!.
    + by apply step_lengths.
    + destruct (step_frame st (S k) 0%nat) as (_ & -> & _); [lia|done].
    + intros t Ht. destruct (decide (t = S k)) as [->|Hne].
      * apply (step_equity_identity _ _ _ Hlen). lia.
      * unfold equity_identity.
        destruct (step_frame st (S k) t) as (-> & -> & ->); [lia|].
        destruct (step_frame st (S k) (t - 1)%nat) as (-> & _ & _); [lia|].
        apply Heq. lia.
    + intros Hm t. destruct (decide (t = S k)) as [->|Hne].
      * destruct (step_position _ st (S k) Hlen) as [->|(target & -> & Hn)]; [lia| |].
        -- by apply Hb.
        -- by apply clip_abs_le.
      * destruct (step_frame st (S k) t) as (_ & -> & _); [lia|]. by apply Hb.
Qed.

End Simulate.

(** C4, as amended. For a price series of length at least 1, any signals,
    any position sizer and any [max_position ≥ 0], [run] returns a frame
    in which [position[0] = 0], [|position[t]| ≤ max_position] at every
    [t], and, for every [t ≥ 1],
    [equity[t] = cash[t] + position[t] * equity[t-1] * (price[t] / price[t-1])]. *)
Theorem run_state_invariant self prices signals position_sizer max_position :
  (1 ≤ length prices)%nat →
  (0 <=? max_position) = true →
  ∃ results self',
    run self prices signals position_sizer max_position = (Ok results, self')
    ∧ position results !!! 0%nat = 0
    ∧ (∀ t, (t < length prices)%nat →
         (abs (position results !!! t) <=? max_position) = true)
    ∧ (∀ t, (1 ≤ t < length prices)%nat →
         equity results !!! t
         = cash results !!! t
           + position results !!! t * equity results !!! (t - 1)%nat
             * (price results !!! t / price results !!! (t - 1)%nat)).
Proof.
  intros Hn Hm. unfold run. destruct prices as [|p0 prices']; [simpl in Hn; lia|].
  set (prices := p0 :: prices') in *.
  set (sizer := match position_sizer with Some f => f | None => _ end).
  set (sigs := reindex_fillna _ _).
  eexists _, _. split; [reflexivity|]. cbn [position equity cash price].
  destruct (simulate_invariant self prices sigs sizer max_position)
    as (_ & H0 & Heq & Hb).
  split_and!; [done|by intros t _; apply Hb|].
  intros t Ht. apply Heq. lia.
Qed.

Lemma run_state_invariant_witness :
  ∃ results self',
    run (init 100000 0.001 0.0005) [100; 102; 101] [1; 1; 1] None 1
    = (Ok results, self')
    ∧ position results !!! 0%nat = 0
    ∧ (∀ t, (t < 3)%nat → (abs (position results !!! t) <=? 1) = true)
    ∧ (∀ t, (1 ≤ t < 3)%nat →
         equity results !!! t
         = cash results !!! t
           + position results !!! t * equity results !!! (t - 1)%nat
             * (price results !!! t / price results !!! (t - 1)%nat)).
Proof.
  apply (run_state_invariant (init 100000 0.001 0.0005) [100; 102; 101] [1; 1; 1] None 1).
  - simpl. lia.
  - reflexivity.
Defined.

(** C4, as stated, fails for a negative [max_position]: the default sizer
    on the signal 1 targets -1, the clip leaves -1, the trade is made, and
    the position -1 has magnitude 1 > -1 (so has the initial position 0). *)
Lemma run_state_invariant_counterexample :
  ∃ results self',
    run (init 100000 0.001 0.0005) [100; 100] [1; 1] None (-1) = (Ok results, self')
    ∧ position results = [0; -1]
    ∧ (abs (position results !!! 0%nat) <=? -1) = false
    ∧ (abs (position results !!! 1%nat) <=? -1) = false.
Proof. eexists _, _. split; [reflexivity|]. by split_and!. Qed.

(** The loop body never reads [slippage]: [execution_price] is bound and
    not used. *)
Lemma step_ignores_slippage ic tc s1 s2 r1 r2 prices signals sizer max_position st i :
  step (mkBacktester ic tc s1 r1) prices signals sizer max_position st i
  = step (mkBacktester ic tc s2 r2) prices signals sizer max_position st i.
Proof. reflexivity. Qed.

Lemma simulate_ignores_slippage ic tc s1 s2 r1 r2 prices signals sizer max_position :
  simulate (mkBacktester ic tc s1 r1) prices signals sizer max_position
  = simulate (mkBacktester ic tc s2 r2) prices signals sizer max_position.
Proof. reflexivity. Qed.

(** C2. On the prices [100; 102; 101] with the signal 1 a trade occurs at
    step 1, the proportional cost is taken from the cash, and yet the run
    with slippage 0.0005 produces the same cash and equity as the run with
    slippage 0; whatever the inputs, no column of the result depends on
    the slippage fraction. *)
Theorem run_ignores_slippage :
  (∃ results self',
     run (init 100000 0.001 0.0005) [100; 102; 101] [1; 1; 1] None 1
     = (Ok results, self')
     ∧ trades results = [0; 1; 0]
     ∧ cash results = [100000; -100; -100]
     ∧ ∃ results0 self0',
         run (init 100000 0.001 0) [100; 102; 101] [1; 1; 1] None 1
         = (Ok results0, self0')
         ∧ cash results0 = cash results ∧ equity results0 = equity results)
  ∧ ∀ initial_capital transaction_cost s1 s2 prices signals position_sizer max_position,
      (run (init initial_capital transaction_cost s1) prices signals
         position_sizer max_position).1
      = (run (init initial_capital transaction_cost s2) prices signals
           position_sizer max_position).1.
Proof.
  split.
  - eexists _, _. split; [reflexivity|]. split; [reflexivity|]. split; [reflexivity|].
    eexists _, _. split; [reflexivity|]. by split.
  - intros ic tc s1 s2 prices signals sizer maxp. unfold run, init.
    destruct prices as [|p0 prices']; [done|]. simpl.
    by rewrite (simulate_ignores_slippage ic tc s1 s2 None None).
Qed.

End BacktesterRun.

(** ** Walk-forward validator *)

Section WalkForward.
Import Validator.
Context {Row Idx Series Frame Summary Model : Type}.
Context `{!Pandas Row Idx Series Frame Summary}.

Abbreviation FoldResult := (FoldResult Idx Frame).
Abbreviation WalkForwardValidator := (WalkForwardValidator Idx Frame).

Lemma raises_only_Exception_cons nf metric_funcs :
  raises_only_Exception (nf :: metric_funcs) → raises_only_Exception metric_funcs.
Proof.
  intros Hall name f a p e Hin Hr. eapply Hall; [|exact Hr]. by apply elem_of_cons; right.
Qed.

Lemma calculate_metrics_caught metric_funcs actual pred metrics warns :
  raises_only_Exception metric_funcs →
  ∃ warns',
    calculate_metrics metric_funcs actual pred metrics warns
    = (Ok (recorded metric_funcs actual pred metrics), warns')
    ∧ warns ⊆ warns'
    ∧ ∀ name f e, (name, f) ∈ metric_funcs → f actual pred = Raise e →
        failed_to_calculate name e ∈ warns'.
Proof.
  revert metrics warns. induction metric_funcs as [|[name f] rest IH];
    intros metrics warns Hexc; simpl.
  - exists warns. split_and!; [done|done|]. intros ??? Hin. by apply elem_of_nil in Hin.
  - pose proof (raises_only_Exception_cons _ _ Hexc) as Hrest.
    unfold metric_value at 1. destruct (f actual pred) as [v|e] eqn:Hf.
    + destruct (IH (<[name := v]> metrics) warns Hrest) as (w' & -> & Hsub & Hw).
      exists w'. split_and!; [done|done|].
      intros name' f' e' [[= -> ->]|Hin]%elem_of_cons Hr; [congruence|by eapply Hw].
    + rewrite (Hexc name f actual pred e); [|by left|done].
      destruct (IH (<[name := nan]> metrics) (warns ++ [failed_to_calculate name e]) Hrest)
        as (w' & -> & Hsub & Hw).
      exists w'. split_and!; [done|set_solver|].
      intros name' f' e' [[= -> ->]|Hin]%elem_of_cons Hr; [|by eapply Hw].
      assert (e' = e) as -> by congruence. set_solver.
Qed.

Lemma recorded_lookup metric_funcs actual pred metrics name f :
  NoDup metric_funcs.*1 → (name, f) ∈ metric_funcs →
  recorded metric_funcs actual pred metrics !! name = Some (metric_value f actual pred).
Proof.
  revert metrics. induction metric_funcs as [|[name' f'] rest IH]; intros metrics Hnd Hin.
  - by apply elem_of_nil in Hin.
  - apply NoDup_cons in Hnd as [Hfresh Hnd].
    apply elem_of_cons in Hin as [[= -> ->]|Hin]; simpl.
    + clear IH Hnd. revert metrics. simpl in Hfresh.
      induction rest as [|[n2 f2] rest IH]; intros metrics; simpl.
      * apply lookup_insert_eq.
      * apply not_elem_of_cons in Hfresh as [Hne Hfresh]. simpl in *.
        rewrite insert_insert_ne by done. by apply IH.
    + by apply IH.
Qed.

Lemma fold_metrics_recorded_mono metric_funcs w w' (r : FoldResult) :
  w ⊆ w' → fold_metrics_recorded metric_funcs w r → fold_metrics_recorded metric_funcs w' r.
Proof.
  intros Hsub Hr name f Hin. destruct (Hr name f Hin) as [Hv Hw].
  split; [done|]. intros e He. destruct (Hw e He). split; [done|]. by apply Hsub.
Qed.

(** One fold with the metric functions against the same fold without
    any: the same exception or the same model, frame and index labels. *)
Lemma validate_fold_metrics metric_funcs refit
    (fit_func : list Row → result (option Model)) predict_func verbose model i
    train_data test_data w w0 :
  raises_only_Exception metric_funcs → NoDup metric_funcs.*1 →
  match validate_fold refit fit_func predict_func [] verbose model i
          train_data test_data w0 with
  | (Raise e, _) =>
      ∃ w', validate_fold refit fit_func predict_func metric_funcs verbose model i
              train_data test_data w = (Raise e, w') ∧ w ⊆ w'
  | (Ok (m, r0), _) =>
      ∃ r w', validate_fold refit fit_func predict_func metric_funcs verbose model i
                train_data test_data w = (Ok (m, r), w')
              ∧ w ⊆ w' ∧ same_but_metrics r r0
              ∧ fold_metrics_recorded metric_funcs w' r
  end.
Proof.
  intros Hexc Hnd. unfold validate_fold. cbv zeta.
  match goal with
  | |- context [match ?b with Ok _ => _ | Raise _ => _ end] =>
      destruct b as [[m fr]|e]
  end; [|by exists w].
  destruct (calculate_metrics_caught metric_funcs (actual_of fr) (pred_of fr) ∅ w Hexc)
    as (w' & -> & Hsub & Hw).
  simpl.
  destruct (index_first train_data) as [a|e]; simpl; [|by exists w'].
  destruct (index_last train_data) as [b|e]; simpl; [|by exists w'].
  destruct (index_first test_data) as [c|e]; simpl; [|by exists w'].
  destruct (index_last test_data) as [d|e]; simpl; [|by exists w'].
  eexists _, w'. split_and!; [done|done|done|].
  intros name f Hin. simpl. split.
  - by apply recorded_lookup.
  - intros e He. split; [|by eapply Hw].
    rewrite (recorded_lookup _ _ _ _ name f Hnd Hin). unfold metric_value. by rewrite He.
Qed.

Lemma validate_loop_metrics metric_funcs refit
    (fit_func : list Row → result (option Model)) predict_func verbose folds :
  raises_only_Exception metric_funcs → NoDup metric_funcs.*1 →
  ∀ model i results results0 w w0,
    Forall2 (λ r r0, same_but_metrics r r0 ∧ fold_metrics_recorded metric_funcs w r)
      results results0 →
    match validate_loop refit fit_func predict_func [] verbose model i folds
            results0 w0 with
    | (Raise e, _) =>
        ∃ w', validate_loop refit fit_func predict_func metric_funcs verbose model i
                folds results w = (Raise e, w')
    | (Ok rs0, _) =>
        ∃ rs w', validate_loop refit fit_func predict_func metric_funcs verbose model i
                   folds results w = (Ok rs, w')
                 ∧ Forall2 (λ r r0, same_but_metrics r r0
                                    ∧ fold_metrics_recorded metric_funcs w' r) rs rs0
    end.
Proof.
  intros Hexc Hnd. induction folds as [|[train_data test_data] rest IH];
    intros model i results results0 w w0 Hrel; simpl.
  - by exists results, w.
  - pose proof (validate_fold_metrics metric_funcs refit fit_func predict_func verbose
                  model i train_data test_data w w0 Hexc Hnd) as Hfold.
    destruct (validate_fold refit fit_func predict_func [] verbose model i
                train_data test_data w0) as [[[m r0]|e] w0'].
    + destruct Hfold as (r & w' & -> & Hsub & Hsame & Hrec).
      apply IH. apply Forall2_app.
      * eapply Forall2_impl; [exact Hrel|]. intros x y [??]. split; [done|].
        by eapply fold_metrics_recorded_mono.
      * constructor; [done|constructor].
    + destruct Hfold as (w' & -> & _). by exists w'.
Qed.

(** What one fold that went through has called: [fit_func] on its
    training rows unless a model was kept, then [predict_func] on its test
    rows. *)
Lemma validate_fold_calls refit (fit_func : list Row → result (option Model))
    predict_func metric_funcs verbose model i train_data test_data w m
    (r : FoldResult) w' :
  validate_fold refit fit_func predict_func metric_funcs verbose model i
    train_data test_data w = (Ok (m, r), w') →
  fold_id r = Z.of_nat i ∧ describes r (train_data, test_data)
  ∧ (if refit || is_None model then fit_func train_data = Ok m else m = model)
  ∧ ∃ p, predict_func m test_data = Ok p ∧ to_frame p test_data = Ok (predictions r).
Proof.
  unfold validate_fold, describes. cbv zeta. cbn [fst snd].
  destruct (if verbose then _ else _) as [[]|e]; simpl; [|done].
  destruct (if refit || is_None model then fit_func train_data else Ok model)
    as [m0|e] eqn:Hfit; simpl; [|done].
  destruct (predict_func m0 test_data) as [p|e] eqn:Hp; simpl; [|done].
  destruct (to_frame p test_data) as [fr|e] eqn:Hfr; simpl; [|done].
  destruct (calculate_metrics _ _ _ _ _) as [[ms|e] w1]; [|done].
  destruct (index_first train_data) as [a|e]; simpl; [|done].
  destruct (index_last train_data) as [b|e]; simpl; [|done].
  destruct (index_first test_data) as [c|e]; simpl; [|done].
  destruct (index_last test_data) as [d|e]; simpl; [|done].
  intros Heq. injection Heq as <- <- <-. simpl. split_and!; try done.
  - destruct (refit || is_None model); [done|by injection Hfit].
  - by exists p.
Qed.

Lemma take_S_middle {A : Type} (l1 : list A) x l2 :
  take (S (length l1)) (l1 ++ x :: l2) = l1 ++ [x].
Proof.
  rewrite cons_middle, app_assoc.
  replace (S (length l1)) with (length (l1 ++ [x])) by (rewrite length_app; simpl; lia).
  by rewrite take_app_length.
Qed.

(** The results of a loop that went through are those of the folds, in
    order. *)
Lemma validate_loop_folds refit (fit_func : list Row → result (option Model))
    predict_func metric_funcs verbose folds rest :
  ∀ done model results rs w w',
    folds = done ++ rest → length results = length done →
    (refit = false →
     model = None ∨ ∃ train_data, train_data ∈ done.*1 ∧ fit_func train_data = Ok model) →
    (∀ j r, results !! j = Some r →
            result_of_fold refit fit_func predict_func folds j r) →
    validate_loop refit fit_func predict_func metric_funcs verbose model
      (length done) rest results w = (Ok rs, w') →
    length rs = length folds
    ∧ ∀ j r, rs !! j = Some r → result_of_fold refit fit_func predict_func folds j r.
Proof.
  induction rest as [|[train_data test_data] rest IH];
    intros done model results rs w w' Hfolds Hlen Hmodel Hres Hloop; simpl in Hloop.
  - injection Hloop as <- <-. rewrite app_nil_r in Hfolds. by subst.
  - destruct (validate_fold _ _ _ _ _ _ _ _ _ _) as [[[m r]|e] w1] eqn:Hfold; [|done].
    apply validate_fold_calls in Hfold as (Hid & Hdesc & Hfit & p & Hp & Hfr).
    assert (Hhere : folds !! length done = Some (train_data, test_data)).
    { subst folds. by rewrite list_lookup_middle. }
    assert (Htake : (take (S (length done)) folds).*1 = done.*1 ++ [train_data]).
    { subst folds. by rewrite take_S_middle, fmap_app. }
    assert (Hprov : ∃ t, t ∈ (if refit then [train_data] else done.*1 ++ [train_data])
                         ∧ fit_func t = Ok m).
    { destruct refit; simpl in Hfit.
      - exists train_data. split; [by left|done].
      - destruct model as [m0|]; simpl in Hfit.
        + subst m. destruct (Hmodel eq_refl) as [|(t & Ht & Hfit0)]; [done|].
          exists t. split; [|done]. apply elem_of_app. by left.
        + exists train_data. split; [|done]. apply elem_of_app. right. by left. }
    replace (S (length done)) with (length (done ++ [(train_data, test_data)])) in Hloop
      by (rewrite length_app; simpl; lia).
    apply (IH (done ++ [(train_data, test_data)]) m (results ++ [r])) in Hloop; [done|..].
    + by rewrite <- app_assoc.
    + rewrite !length_app. simpl. lia.
    + intros Hrefit. rewrite Hrefit in Hprov. destruct Hprov as (t & Ht & Hfit0).
      right. exists t. split; [|done]. by rewrite fmap_app.
    + intros j r' Hj. apply lookup_app_Some in Hj as [Hj|[Hge Hj]]; [by apply Hres|].
      apply list_lookup_singleton_Some in Hj as [Hj0 <-].
      replace j with (length done) by lia.
      exists train_data, test_data. split_and!; [done|done|done|].
      destruct Hprov as (t & Ht & Hfit0). exists t, m, p. split_and!; [|done|done|done].
      rewrite Htake. by destruct refit.
Qed.

Lemma index_first_Ok (data : list Row) : data ≠ [] → ∃ a, index_first data = Ok a.
Proof. destruct data; [done|]. by eexists. Qed.

Lemma index_last_Ok (data : list Row) : data ≠ [] → ∃ a, index_last data = Ok a.
Proof.
  intros Hne. unfold index_last. destruct (last data) as [x|] eqn:Hlast; [by eexists|].
  by apply last_None in Hlast.
Qed.

(** No exception comes from a metric function: the loop returns whenever
    the folds go through. *)
Lemma validate_loop_goes_through metric_funcs refit
    (fit_func : list Row → result (option Model)) predict_func verbose folds :
  raises_only_Exception metric_funcs →
  folds_go_through fit_func predict_func folds →
  ∀ model i (results : list FoldResult) w,
    ∃ rs w', validate_loop refit fit_func predict_func metric_funcs verbose model i
               folds results w = (Ok rs, w').
Proof.
  intros Hexc Hgo. induction Hgo as [|[train_data test_data] rest Hfold _ IH];
    intros model i results w; simpl.
  - by eexists _, _.
  - destruct Hfold as (Htrain & Htest & (m0 & Hfit) & Hpredict). simpl in *.
    destruct (index_first_Ok _ Htrain) as (a & Ha), (index_last_Ok _ Htrain) as (b & Hb),
      (index_first_Ok _ Htest) as (c & Hc), (index_last_Ok _ Htest) as (d & Hd).
    unfold validate_fold, print_fold_header. cbv zeta. rewrite Ha, Hb, Hc, Hd.
    replace (if verbose then _ else Ok ()) with (Ok () : result unit)
      by by destruct verbose.
    cbn [bind].
    destruct (if refit || is_None model then fit_func train_data else Ok model)
      as [m|e] eqn:Hm; [|destruct (refit || is_None model); congruence].
    cbn [bind]. destruct (Hpredict m) as (p & fr & Hp & Hfr).
    rewrite Hp. cbn [bind]. rewrite Hfr. cbn [bind].
    destruct (calculate_metrics_caught metric_funcs (actual_of fr) (pred_of fr) ∅ w Hexc)
      as (w' & -> & _). cbn [bind]. apply IH.
Qed.

(** C5. Let the metric functions be a dict (distinct names) whose members
    raise instances of [Exception] only, and let [create_folds] return
    [folds].  Then [validate] ends as it does without any metric function:
    with the same exception of [fit_func], [predict_func] or the frame
    building, or with one result per fold, in order, each carrying the
    position and the index labels of its fold and the predictions made on
    its test rows; in each result every registered metric is recorded, as
    NaN when its function raised, with a warning issued for it.  And
    [validate] does return whenever the folds go through: no exception
    comes from a metric function. *)
Theorem validate_metric_failures_isolated
    (self : WalkForwardValidator) (data : list Row)
    (fit_func : list Row → result (option Model)) predict_func metric_funcs verbose folds :
  NoDup metric_funcs.*1 →
  raises_only_Exception metric_funcs →
  Folds.create_folds data (method self) (n_folds self) (test_size self)
    (train_size self) (gap self) = Ok folds →
  match validate self data fit_func predict_func (Some []) verbose with
  | (Raise e, _, _) =>
      ∃ w, validate self data fit_func predict_func (Some metric_funcs) verbose
           = (Raise e, w, self)
  | (Ok rs0, _, _) =>
      ∃ rs w, validate self data fit_func predict_func (Some metric_funcs) verbose
              = (Ok rs, w, with_results self rs)
              ∧ Forall2 same_but_metrics rs rs0
              ∧ length rs = length folds
              ∧ ∀ i r, rs !! i = Some r →
                  result_of_fold (refit self) fit_func predict_func folds i r
                  ∧ fold_metrics_recorded metric_funcs w r
  end
  ∧ (folds_go_through fit_func predict_func folds →
     ∃ rs w, validate self data fit_func predict_func (Some metric_funcs) verbose
             = (Ok rs, w, with_results self rs)).
Proof.
  intros Hnd Hexc Hfolds. unfold validate. rewrite Hfolds. split.
  - pose proof (validate_loop_metrics metric_funcs (refit self) fit_func predict_func
                  verbose folds Hexc Hnd None 0%nat [] [] [] [] (Forall2_nil_2 _ _ _))
      as Hloop.
    destruct (validate_loop (refit self) fit_func predict_func [] verbose None 0 folds [] [])
      as [[rs0|e] w0].
    + destruct Hloop as (rs & w & Hrun & Hrel). rewrite Hrun. exists rs, w.
      destruct (validate_loop_folds (refit self) fit_func predict_func metric_funcs
                  verbose folds folds [] None [] rs [] w) as [Hlen Hres];
        [done|done|by left|by intros j r Hj|exact Hrun|].
      split_and!; [done| |done|].
      * eapply Forall2_impl; [exact Hrel|]. by intros r r0 [? _].
      * intros i r Hi. split; [by apply Hres|].
        destruct (Forall2_lookup_l _ _ _ _ _ Hrel Hi) as (r0 & _ & _ & Hrec). done.
    + destruct Hloop as (w & ->). by exists w.
  - intros Hgo.
    destruct (validate_loop_goes_through metric_funcs (refit self) fit_func predict_func
                verbose folds Hexc Hgo None 0%nat [] []) as (rs & w & ->).
    by exists rs, w.
Qed.

(** C6. On a validator or a backtester that has not run, the read methods
    raise at once and leave the object as it was. *)
Theorem read_before_run_raises :
  (∀ n_folds test_size gap method train_size refit,
     let v : WalkForwardValidator := init n_folds test_size gap method train_size refit in
     summary v = (Raise no_results, v)
     ∧ get_all_predictions v = (Raise no_results, v))
  ∧ (∀ pow initial_capital transaction_cost slippage,
       let b := Backtest.init initial_capital transaction_cost slippage in
       Backtest.summary pow b = (Raise Backtest.no_results, b)).
Proof. by split. Qed.

End WalkForward.

(** ** A positive integer converts to a positive float *)

Section FloatConversion.

Lemma digits2_pos_bounds p :
  2 ^ (Z.pos (digits2_pos p) - 1) ≤ Z.pos p < 2 ^ Z.pos (digits2_pos p).
Proof.
  induction p as [p IH|p IH|]; simpl digits2_pos.
  - rewrite Pos2Z.inj_succ.
    replace (Z.succ (Z.pos (digits2_pos p)) - 1) with (Z.succ (Z.pos (digits2_pos p) - 1)) by lia.
    rewrite !Z.pow_succ_r by lia. lia.
  - rewrite Pos2Z.inj_succ.
    replace (Z.succ (Z.pos (digits2_pos p)) - 1) with (Z.succ (Z.pos (digits2_pos p) - 1)) by lia.
    rewrite !Z.pow_succ_r by lia. lia.
  - simpl. lia.
Qed.

Lemma shr_1_m r : 0 ≤ shr_m r → shr_m (shr_1 r) = shr_m r / 2.
Proof.
  destruct r as [m rb sb]. simpl. intros Hm.
  destruct m as [|[p|p|]|p]; cbn [shr_m]; try done; try lia.
  - apply Z.div_unique with 1; lia.
  - apply Z.div_unique with 0; lia.
Qed.

Lemma iter_pos_shr_1 n : ∀ r k,
  0 ≤ k → 0 ≤ shr_m r →
  shr_m (SpecFloat.iter_pos shr_1 n r) = shr_m r / 2 ^ Z.pos n.
Proof.
  assert (Hstep : ∀ r, 0 ≤ shr_m r → 0 ≤ shr_m (shr_1 r)).
  { intros r Hr. rewrite shr_1_m by done. apply Z.div_pos; lia. }
  induction n as [n IH|n IH|]; intros r k Hk Hr; simpl SpecFloat.iter_pos.
  - rewrite (IH _ 0), (IH _ 0), shr_1_m; try done.
    + rewrite !Z.div_div by lia. f_equal.
      rewrite Pos2Z.inj_xI, Z.pow_add_r, Z.pow_mul_r by lia.
      change (2 ^ 2) with 4. change (2 ^ 1) with 2.
      replace (4 ^ Z.pos n) with (2 ^ Z.pos n * 2 ^ Z.pos n); [lia|].
      rewrite <- Z.pow_add_r by lia. replace (Z.pos n + Z.pos n) with (2 * Z.pos n) by lia.
      by rewrite Z.pow_mul_r by lia.
    + by apply Hstep.
    + rewrite (IH _ 0); [apply Z.div_pos; [by apply Hstep|lia]|done|by apply Hstep].
  - rewrite (IH _ 0), (IH _ 0); try done.
    + rewrite !Z.div_div by lia. f_equal.
      rewrite Pos2Z.inj_xO, <- Z.pow_add_r by lia. f_equal. lia.
    + rewrite (IH _ 0); [apply Z.div_pos; lia|done|done].
  - rewrite shr_1_m by done. done.
Qed.

Lemma shr_m_record_of_loc m l : shr_m (shr_record_of_loc m l) = m.
Proof. by destruct l as [|[]]. Qed.

Lemma shr_fexp_pos m e l :
  0 < m → emin ≤ e →
  0 < shr_m (shr_fexp prec emax m e l).1 ∧ emin ≤ (shr_fexp prec emax m e l).2.
Proof.
  intros Hm He. unfold shr_fexp, shr.
  destruct m as [|p|p]; [lia| |lia]. simpl Zdigits2.
  pose proof (digits2_pos_bounds p) as [Hlo Hhi].
  set (d := Z.pos (digits2_pos p)) in *.
  assert (Hn : fexp prec emax (d + e) - e < d).
  { unfold fexp. change (SpecFloat.emin prec emax) with emin. change emin with (-1074) in *.
    change prec with 53. lia. }
  destruct (fexp prec emax (d + e) - e) as [|n|n] eqn:Hsh; simpl;
    rewrite ?shr_m_record_of_loc; try (split; lia).
  rewrite (iter_pos_shr_1 n _ 0); rewrite ?shr_m_record_of_loc; try lia.
  split; [|lia].
  apply Z.div_str_pos. split; [lia|].
  etrans; [|exact Hlo]. apply Z.pow_le_mono_r; lia.
Qed.

Lemma round_nearest_even_pos m l : 0 < m → 0 < round_nearest_even m l.
Proof. intros Hm. destruct l as [|[]]; simpl; try done; [destruct (Z.even m)|]; lia. Qed.

(** Rounding a positive mantissa at an exponent not below [emin] gives a
    finite non-zero value or an infinity, of the sign asked for. *)
Lemma binary_round_aux_pos sx m e l :
  0 < m → emin ≤ e →
  (∃ m' e', binary_round_aux prec emax sx m e l = S754_finite sx m' e')
  ∨ binary_round_aux prec emax sx m e l = S754_infinity sx.
Proof.
  intros Hm He. unfold binary_round_aux.
  pose proof (shr_fexp_pos m e l Hm He) as [H1 H1e].
  destruct (shr_fexp prec emax m e l) as [r1 e1]. simpl in H1, H1e.
  pose proof (shr_fexp_pos _ e1 loc_Exact
                (round_nearest_even_pos _ (loc_of_shr_record r1) H1) H1e) as [H2 _].
  destruct (shr_fexp prec emax _ e1 loc_Exact) as [r2 e2]. simpl in H2.
  destruct (shr_m r2) as [|p|p]; [lia| |lia].
  destruct (e2 <=? emax - prec); [left; by eauto|by right].
Qed.

Lemma binary_normalize_pos p :
  (∃ m e, binary_normalize prec emax (Z.pos p) 0 false = S754_finite false m e)
  ∨ binary_normalize prec emax (Z.pos p) 0 false = S754_infinity false.
Proof.
  unfold binary_normalize, binary_round, shl_align.
  set (ex' := fexp prec emax (Z.pos (digits2_pos p) + 0)).
  assert (emin ≤ ex').
  { unfold ex', fexp. change (SpecFloat.emin prec emax) with emin. lia. }
  destruct (ex' - 0) eqn:Hd; apply binary_round_aux_pos; try done; by change emin with (-1074).
Qed.

(** Zero divided by the float of a length is zero. *)
Lemma zero_div_float_of_nat n :
  (1 ≤ n)%nat → Z.of_nat n < 2 ^ 63 → (0 / Np.float_of_nat n)%float = 0%float.
Proof.
  intros Hn Hlt. apply Prim2SF_inj.
  rewrite FloatAxioms.div_spec. unfold Np.float_of_nat.
  rewrite FloatAxioms.of_uint63_spec, Uint63.of_Z_spec.
  rewrite Z.mod_small by (change Uint63.wB with (2 ^ 63); lia).
  destruct (Z.of_nat n) as [|p|p] eqn:Hp; [lia| |lia].
  destruct (binary_normalize_pos p) as [(m & e & ->)| ->]; reflexivity.
Qed.

End FloatConversion.

(** ** Trading metrics *)

Section TradingMetrics.
Import Metrics.
Local Open Scope float_scope.

Lemma no_nan_no_Exists (xs : list float) :
  Forall (λ x, is_nan x = false) xs → ¬ Exists (λ x, is_nan x = true) xs.
Proof.
  intros Hall Hex. apply Exists_exists in Hex as (x & Hin & Hx).
  rewrite Forall_forall in Hall. specialize (Hall x Hin). congruence.
Qed.

Lemma leb_refl x : not_nan x → (x <=? x) = true.
Proof. intros Hx. apply leb_true. split_and!; [done|done|]. key_arith. Qed.

(** The scan of [np.argmin] over [xs], after a prefix [pre] free of NaN
    whose first least element [mp] stands at [min_ind]. *)
Lemma argmin_from_spec xs : ∀ pre mp min_ind,
  Forall (λ x, is_nan x = false) pre →
  (min_ind < length pre)%nat → mp = pre !!! min_ind →
  is_first_min pre min_ind →
  is_argmin (pre ++ xs) (Np.argmin_from mp min_ind (length pre) xs).
Proof.
  induction xs as [|x rest IH]; intros pre mp min_ind Hpre Hlt -> [Hmin Hfirst]; simpl.
  - rewrite app_nil_r. split_and!; [done|done|]. intros Hex. by apply no_nan_no_Exists in Hex.
  - assert (Hmp : not_nan (pre !!! min_ind)).
    { apply is_nan_false. by apply (Forall_lookup_total_1 _ _ _ Hpre). }
    destruct (pre !!! min_ind <=? x) eqn:Hle; simpl.
    + (* x >= mp: the minimum stays *)
      replace (pre ++ x :: rest) with ((pre ++ [x]) ++ rest) by by rewrite <- app_assoc.
      replace (S (length pre)) with (length (pre ++ [x])) by (rewrite length_app; simpl; lia).
      pose proof Hle as Hle'. apply leb_true in Hle' as (_ & Hx & _).
      apply IH.
      * apply Forall_app. split; [done|]. constructor; [by apply is_nan_false|done].
      * rewrite length_app. lia.
      * by rewrite lookup_total_app_l.
      * split.
        -- intros j Hj. rewrite length_app in Hj. simpl in Hj.
           rewrite (lookup_total_app_l pre) by done.
           destruct (decide (j < length pre)%nat).
           ++ rewrite lookup_total_app_l by done. by apply Hmin.
           ++ replace j with (length pre) by lia. by rewrite list_lookup_total_middle.
        -- intros j Hj. rewrite !lookup_total_app_l by lia. by apply Hfirst.
    + destruct (is_nan x) eqn:Hx.
      * (* a NaN ends the scan *)
        split_and!.
        -- rewrite length_app. simpl. lia.
        -- intros Hall. apply Forall_app in Hall as [_ Hall].
           apply Forall_cons in Hall as [Hx' _]. congruence.
        -- intros _. split.
           ++ by rewrite list_lookup_total_middle.
           ++ intros j Hj. rewrite lookup_total_app_l by done.
              by apply (Forall_lookup_total_1 _ _ _ Hpre).
      * (* x < mp: a new minimum, at this position *)
        apply is_nan_false in Hx. apply (leb_false _ _ Hmp Hx) in Hle.
        replace (pre ++ x :: rest) with ((pre ++ [x]) ++ rest) by by rewrite <- app_assoc.
        replace (S (length pre)) with (length (pre ++ [x])) by (rewrite length_app; simpl; lia).
        apply IH.
        -- apply Forall_app. split; [done|]. constructor; [by apply is_nan_false|done].
        -- rewrite !length_app. simpl. lia.
        -- by rewrite list_lookup_total_middle.
        -- unfold is_first_min. rewrite (list_lookup_total_middle pre []) by done. split.
           ++ intros j Hj. rewrite length_app in Hj. simpl in Hj.
              destruct (decide (j < length pre)%nat).
              ** rewrite lookup_total_app_l by done.
                 specialize (Hmin j ltac:(done)). apply leb_true in Hmin as (_ & Hj' & Hk).
                 apply leb_true. split_and!; [done|done|]. key_arith.
              ** replace j with (length pre) by lia. rewrite list_lookup_total_middle by done.
                 by apply leb_refl.
           ++ intros j Hj. rewrite lookup_total_app_l by done.
              specialize (Hmin j ltac:(done)). apply leb_true in Hmin as (_ & Hj' & Hk).
              apply ltb_true. split_and!; [done|done|]. key_arith.
Qed.

(** The same scan for [np.argmax]. *)
Lemma argmax_from_spec xs : ∀ pre mp max_ind,
  Forall (λ x, is_nan x = false) pre →
  (max_ind < length pre)%nat → mp = pre !!! max_ind →
  is_first_max pre max_ind →
  is_argmax (pre ++ xs) (Np.argmax_from mp max_ind (length pre) xs).
Proof.
  induction xs as [|x rest IH]; intros pre mp max_ind Hpre Hlt -> [Hmax Hfirst]; simpl.
  - rewrite app_nil_r. split_and!; [done|done|]. intros Hex. by apply no_nan_no_Exists in Hex.
  - assert (Hmp : not_nan (pre !!! max_ind)).
    { apply is_nan_false. by apply (Forall_lookup_total_1 _ _ _ Hpre). }
    destruct (x <=? pre !!! max_ind) eqn:Hle; simpl.
    + replace (pre ++ x :: rest) with ((pre ++ [x]) ++ rest) by by rewrite <- app_assoc.
      replace (S (length pre)) with (length (pre ++ [x])) by (rewrite length_app; simpl; lia).
      pose proof Hle as Hle'. apply leb_true in Hle' as (Hx & _ & _).
      apply IH.
      * apply Forall_app. split; [done|]. constructor; [by apply is_nan_false|done].
      * rewrite length_app. lia.
      * by rewrite lookup_total_app_l.
      * split.
        -- intros j Hj. rewrite length_app in Hj. simpl in Hj.
           rewrite (lookup_total_app_l pre _ max_ind) by done.
           destruct (decide (j < length pre)%nat).
           ++ rewrite lookup_total_app_l by done. by apply Hmax.
           ++ replace j with (length pre) by lia. by rewrite list_lookup_total_middle.
        -- intros j Hj. rewrite !lookup_total_app_l by lia. by apply Hfirst.
    + destruct (is_nan x) eqn:Hx.
      * split_and!.
        -- rewrite length_app. simpl. lia.
        -- intros Hall. apply Forall_app in Hall as [_ Hall].
           apply Forall_cons in Hall as [Hx' _]. congruence.
        -- intros _. split.
           ++ by rewrite list_lookup_total_middle.
           ++ intros j Hj. rewrite lookup_total_app_l by done.
              by apply (Forall_lookup_total_1 _ _ _ Hpre).
      * apply is_nan_false in Hx. apply (leb_false _ _ Hx Hmp) in Hle.
        replace (pre ++ x :: rest) with ((pre ++ [x]) ++ rest) by by rewrite <- app_assoc.
        replace (S (length pre)) with (length (pre ++ [x])) by (rewrite length_app; simpl; lia).
        apply IH.
        -- apply Forall_app. split; [done|]. constructor; [by apply is_nan_false|done].
        -- rewrite !length_app. simpl. lia.
        -- by rewrite list_lookup_total_middle.
        -- unfold is_first_max. rewrite (list_lookup_total_middle pre []) by done. split.
           ++ intros j Hj. rewrite length_app in Hj. simpl in Hj.
              destruct (decide (j < length pre)%nat).
              ** rewrite lookup_total_app_l by done.
                 specialize (Hmax j ltac:(done)). apply leb_true in Hmax as (Hj' & _ & Hk).
                 apply leb_true. split_and!; [done|done|]. key_arith.
              ** replace j with (length pre) by lia. rewrite list_lookup_total_middle by done.
                 by apply leb_refl.
           ++ intros j Hj. rewrite lookup_total_app_l by done.
              specialize (Hmax j ltac:(done)). apply leb_true in Hmax as (Hj' & _ & Hk).
              apply ltb_true. split_and!; [done|done|]. key_arith.
Qed.

Lemma is_first_nan_head x rest : is_nan x = true → is_first_nan (x :: rest) 0.
Proof. intros Hx. split; [done|]. intros j Hj. lia. Qed.

Lemma argmin_spec xs :
  xs ≠ [] → ∃ i, Np.argmin xs = Ok i ∧ is_argmin xs i.
Proof.
  destruct xs as [|x rest]; [done|]. intros _. simpl. eexists. split; [done|].
  destruct (is_nan x) eqn:Hx.
  - split_and!; [simpl; lia| |by intros _; apply is_first_nan_head].
    intros Hall. apply Forall_cons in Hall as [Hx' _]. congruence.
  - apply (argmin_from_spec rest [x] x 0%nat); [by repeat constructor|simpl; lia|done|].
    split; [|intros j Hj; lia]. intros j Hj. simpl in Hj. replace j with 0%nat by lia.
    apply leb_refl. by apply is_nan_false.
Qed.

Lemma argmax_spec xs :
  xs ≠ [] → ∃ i, Np.argmax xs = Ok i ∧ is_argmax xs i.
Proof.
  destruct xs as [|x rest]; [done|]. intros _. simpl. eexists. split; [done|].
  destruct (is_nan x) eqn:Hx.
  - split_and!; [simpl; lia| |by intros _; apply is_first_nan_head].
    intros Hall. apply Forall_cons in Hall as [Hx' _]. congruence.
  - apply (argmax_from_spec rest [x] x 0%nat); [by repeat constructor|simpl; lia|done|].
    split; [|intros j Hj; lia]. intros j Hj. simpl in Hj. replace j with 0%nat by lia.
    apply leb_refl. by apply is_nan_false.
Qed.

Lemma length_maximum_accumulate_from acc xs :
  length (Np.maximum_accumulate_from acc xs) = length xs.
Proof. revert acc. induction xs as [|x rest IH]; intros acc; simpl; [done|by rewrite IH]. Qed.

Lemma length_drawdown_series equity_curve :
  length (drawdown_series equity_curve) = length equity_curve.
Proof.
  unfold drawdown_series. rewrite length_zip_with.
  destruct equity_curve as [|x rest]; simpl; [done|].
  rewrite length_maximum_accumulate_from. lia.
Qed.

(** C9. On [100, 120, 90, 95, 130] the maximum drawdown is exactly 0.25,
    with peak index 1 and trough index 2.  For every equity curve of at
    least two values [max_drawdown] returns, without raising, the negated
    drawdown at the trough, the trough being the argmin of the drawdown
    series [(equity - running max) / running max] and the peak the argmax
    of the equity up to and including the trough. *)
Theorem max_drawdown_peak_trough :
  max_drawdown [100; 120; 90; 95; 130] = Ok (0.25, 1%nat, 2%nat)
  ∧ ∀ equity_curve, (2 ≤ length equity_curve)%nat →
      ∃ peak trough,
        max_drawdown equity_curve
        = Ok (- (drawdown_series equity_curve !!! trough), peak, trough)
        ∧ is_argmin (drawdown_series equity_curve) trough
        ∧ is_argmax (take (trough + 1) equity_curve) peak.
Proof.
  split; [reflexivity|]. intros equity_curve Hlen. unfold max_drawdown.
  destruct (Nat.ltb_spec (length equity_curve) 2) as [|_]; [lia|].
  destruct (argmin_spec (drawdown_series equity_curve)) as (trough & -> & Htrough).
  { intros Hnil. apply (f_equal length) in Hnil.
    rewrite length_drawdown_series in Hnil. simpl in Hnil. lia. }
  simpl.
  destruct (argmax_spec (take (trough + 1) equity_curve)) as (peak & -> & Hpeak).
  { intros Hnil. apply (f_equal length) in Hnil.
    rewrite length_take in Hnil. simpl in Hnil. lia. }
  simpl. by exists peak, trough.
Qed.

Lemma max_drawdown_peak_trough_witness :
  ∃ peak trough,
    max_drawdown [100; 120; 90; 95; 130]
    = Ok (- (drawdown_series [100; 120; 90; 95; 130] !!! trough), peak, trough)
    ∧ is_argmin (drawdown_series [100; 120; 90; 95; 130]) trough
    ∧ is_argmax (take (trough + 1) [100; 120; 90; 95; 130]) peak.
Proof.
  apply (proj2 max_drawdown_peak_trough [100; 120; 90; 95; 130]). simpl. lia.
Defined.

(** C10. An equity curve with fewer than two values has maximum drawdown
    0.0 at indices 0 and 0, and nothing is raised. *)
Theorem max_drawdown_short equity_curve :
  (length equity_curve < 2)%nat → max_drawdown equity_curve = Ok (0, 0%nat, 0%nat).
Proof.
  intros Hlen. unfold max_drawdown.
  destruct (Nat.ltb_spec (length equity_curve) 2) as [_|]; [done|lia].
Qed.

Lemma max_drawdown_short_witness :
  max_drawdown [] = Ok (0, 0%nat, 0%nat) ∧ max_drawdown [100] = Ok (0, 0%nat, 0%nat).
Proof.
  split.
  - apply (max_drawdown_short []). simpl. lia.
  - apply (max_drawdown_short [100]). simpl. lia.
Defined.

Lemma sum_zero_returns xs : Forall is_zero_return xs → Np.sum xs = 0.
Proof.
  unfold Np.sum. induction 1 as [|x xs [->| ->] _ IH]; simpl; [done|exact IH|exact IH].
Qed.

Lemma mean_zero_returns xs :
  (1 ≤ length xs)%nat → (Z.of_nat (length xs) < 2 ^ 63)%Z →
  Forall is_zero_return xs → Np.mean xs = 0.
Proof.
  intros Hlen Hlt Hz. unfold Np.mean. rewrite sum_zero_returns by done.
  by apply zero_div_float_of_nat.
Qed.

Lemma std_zero_returns xs :
  (1 ≤ length xs)%nat → (Z.of_nat (length xs) < 2 ^ 63)%Z →
  Forall is_zero_return xs → Np.std xs = 0.
Proof.
  intros Hlen Hlt Hz. unfold Np.std. rewrite (mean_zero_returns xs) by done.
  rewrite mean_zero_returns; [done|by rewrite length_fmap|by rewrite length_fmap|].
  apply Forall_fmap. eapply Forall_impl; [exact Hz|]. by intros x [->| ->]; left.
Qed.

Lemma dropna_zero_returns xs : Forall is_zero_return xs → Np.dropna xs = xs.
Proof.
  intros Hz. unfold Np.dropna. induction Hz as [|x xs Hx _ IH]; [done|].
  rewrite filter_cons_True; [by rewrite IH|]. by destruct Hx as [->| ->].
Qed.

(** C8. [sharpe_ratio] returns NaN when fewer than two returns remain once
    the NaN ones are dropped.  With at least two, and a non-zero
    [periods_per_year] (252 by default), it returns 0.0 when their standard
    deviation is below 1e-10; this is so in particular for every series of
    at least two zeros. *)
Theorem sharpe_ratio_degenerate returns risk_free_rate periods_per_year :
  ((length (Np.dropna returns) < 2)%nat →
   sharpe_ratio returns risk_free_rate periods_per_year = Ok nan)
  ∧ (periods_per_year ≠ 0%Z → (2 ≤ length (Np.dropna returns))%nat →
     (Np.std (Np.dropna returns) <? 1e-10) = true →
     sharpe_ratio returns risk_free_rate periods_per_year = Ok 0)
  ∧ (periods_per_year ≠ 0%Z → (2 ≤ length returns)%nat →
     (Z.of_nat (length returns) < 2 ^ 63)%Z → Forall is_zero_return returns →
     sharpe_ratio returns risk_free_rate periods_per_year = Ok 0).
Proof.
  assert (Hstd : periods_per_year ≠ 0%Z → (2 ≤ length (Np.dropna returns))%nat →
                 (Np.std (Np.dropna returns) <? 1e-10) = true →
                 sharpe_ratio returns risk_free_rate periods_per_year = Ok 0).
  { intros Hp Hlen Hs. unfold sharpe_ratio, float_div_int.
    destruct (Nat.ltb_spec (length (Np.dropna returns)) 2) as [|_]; [lia|].
    destruct (Z.eqb_spec periods_per_year 0) as [|_]; [done|]. simpl. by rewrite Hs. }
  split_and!; [|done|].
  - intros Hlen. unfold sharpe_ratio.
    by destruct (Nat.ltb_spec (length (Np.dropna returns)) 2) as [_|]; [|lia].
  - intros Hp Hlen Hlt Hz. apply Hstd; [done|by rewrite dropna_zero_returns|].
    rewrite dropna_zero_returns by done. rewrite std_zero_returns; [done|lia|done|done].
Qed.

Lemma sharpe_ratio_degenerate_witness :
  sharpe_ratio [0.01; nan] 0 252 = Ok nan
  ∧ sharpe_ratio [0.01; 0.01; 0.01] 0 252 = Ok 0
  ∧ sharpe_ratio [0; 0; -0; 0] 0 252 = Ok 0.
Proof.
  split_and!.
  - apply (proj1 (sharpe_ratio_degenerate [0.01; nan] 0 252)). vm_compute. lia.
  - apply (proj1 (proj2 (sharpe_ratio_degenerate [0.01; 0.01; 0.01] 0 252)));
      [done|vm_compute; lia|reflexivity].
  - apply (proj2 (proj2 (sharpe_ratio_degenerate [0; 0; -0; 0] 0 252)));
      [done|simpl; lia|simpl; lia|].
    repeat constructor; by (left + right).
Defined.

End TradingMetrics.

(** ** The validator on a list-backed frame *)

Section ValidatorExample.
Import Validator ListFrame.

Lemma sample_metric_funcs_raise_only_Exception :
  raises_only_Exception sample_metric_funcs.
Proof.
  intros name f actual pred e Hin Hr. unfold sample_metric_funcs in Hin.
  repeat (apply elem_of_cons in Hin as [[= -> ->]|Hin]).
  - unfold Metrics.mae, Metrics.broadcast2 in Hr.
    destruct (_ =? _)%nat; [done|]. destruct actual as [|? [|??]], pred as [|? [|??]];
      simpl in Hr; by simplify_eq.
  - unfold failing_metric in Hr. by simplify_eq.
  - unfold Metrics.rmse, Metrics.broadcast2 in Hr.
    destruct (_ =? _)%nat; [done|]. destruct actual as [|? [|??]], pred as [|? [|??]];
      simpl in Hr; by simplify_eq.
  - by apply elem_of_nil in Hin.
Qed.

Lemma validate_metric_failures_isolated_witness :
  ∃ rs w,
    validate (init 2 2 0 Folds.Expanding None true) sample_data
      sample_fit sample_predict (Some sample_metric_funcs) false
    = (Ok rs, w, with_results (init 2 2 0 Folds.Expanding None true) rs)
    ∧ length rs = 2%nat
    ∧ ∀ i r, rs !! i = Some r →
        fold_id r = Z.of_nat i
        ∧ metrics r !! "BAD" = Some nan
        ∧ metrics r !! "MAE"
          = Some (metric_value Metrics.mae (actual_of (predictions r))
                    (pred_of (predictions r)))
        ∧ failed_to_calculate "BAD" (mkExc RuntimeError "metric failed") ∈ w.
Proof.
  assert (Hnd : NoDup sample_metric_funcs.*1).
  { apply (bool_decide_unpack _). by vm_compute. }
  destruct (validate_metric_failures_isolated
              (init 2 2 0 Folds.Expanding None true) sample_data sample_fit sample_predict
              sample_metric_funcs false _ Hnd
              sample_metric_funcs_raise_only_Exception eq_refl) as [Hsame Hreturns].
  destruct Hreturns as (rs1 & w1 & Hrun1).
  { unfold folds_go_through. simpl. repeat constructor; try done; try by eexists.
    all: intros model; eexists _, _; split; reflexivity. }
  destruct (validate _ _ _ _ (Some []) _) as [[[rs0|e] w0] s0].
  - destruct Hsame as (rs & w & Hrun & _ & Hlen & Hall).
    exists rs, w. split_and!; [exact Hrun|exact Hlen|].
    intros i r Hi. destruct (Hall i r Hi) as [(train & test & _ & Hid & _) Hrec].
    destruct (Hrec "BAD" failing_metric ltac:(by right; left)) as [_ Hbad].
    destruct (Hbad (mkExc RuntimeError "metric failed") eq_refl) as [Hnan Hwarn].
    destruct (Hrec "MAE" Metrics.mae ltac:(by left)) as [Hmae _].
    by split_and!.
  - destruct Hsame as (w & Hrun). rewrite Hrun in Hrun1. discriminate Hrun1.
Defined.

End ValidatorExample.

(** ** More on the fold generator *)

Section FoldGeneratorMore.
Import Folds.

Lemma rolling_loop_fmap n step train_size test_size gap idxs :
  rolling_loop n step train_size test_size gap idxs
  = (λ i, mkFold i (step * i) (step * i + train_size) (step * i + train_size + gap)
            (Z.min (step * i + train_size + gap + test_size) n)) <$> idxs.
Proof.
  induction idxs as [|i rest IH]; simpl; [done|].
  by rewrite rolling_fold_is_Some, IH.
Qed.


Lemma rolling_step_bounds n k train_size test_size gap i :
  train_size + gap + test_size ≤ n → 0 ≤ i < k →
  let step := rolling_step n k train_size test_size gap in
  0 ≤ step * i ∧ step * i + train_size + gap + test_size ≤ n.
Proof.
  intros Hfit Hi step. subst step. unfold rolling_step.
  destruct (Z.gtb_spec k 1) as [Hk|Hk]; [|replace i with 0 by lia; lia].
  set (r := n - train_size - test_size - gap). assert (0 ≤ r) by (unfold r; lia).
  assert (0 ≤ r / (k - 1)) by (apply Z.div_pos; lia).
  assert (r / (k - 1) * (k - 1) ≤ r) by (rewrite Z.mul_comm; apply Z.mul_div_le; lia).
  split; [nia|]. unfold r in *. nia.
Qed.



Lemma range_snoc k : 0 < k → range k = range (k - 1) ++ [k - 1].
Proof.
  intros Hk. unfold range. replace (Z.to_nat k) with (S (Z.to_nat (k - 1))) by lia.
  rewrite seq_S, fmap_app. simpl. do 2 f_equal. lia.
Qed.

(** X3. With two folds or more, what the equal steps leave over stays
    after the last test window: the last fold's test ends
    [(k - 1) * (test_size + gap)] plus the remainder of the step division
    before [n_samples]. *)
Theorem expanding_window_split_tail n k test_size mts gap folds f m :
  1 < k →
  default_min_train_size n k mts = Ok m →
  expanding_window_split n k test_size mts gap = Ok folds →
  last folds = Some f →
  test_end f + (k - 1) * (test_size + gap)
  + (n - m - k * test_size - gap * k) `mod` k = n.
Proof.
  intros Hk Hm Hrun Hlast.
  destruct (decide (m + k * test_size + gap * k > n)) as [Hgt|Hle].
  { by rewrite (expanding_window_split_Raise _ _ _ _ _ _ Hm Hgt) in Hrun. }
  rewrite (expanding_window_split_Ok _ _ _ _ _ _ Hm Hle) in Hrun. injection Hrun as <-.
  destruct (Z.gtb_spec k 1) as [_|]; [|lia].
  rewrite range_snoc, fmap_app in Hlast by lia.
  cbn [fmap list_fmap] in Hlast. rewrite last_snoc in Hlast. injection Hlast as <-.
  simpl. pose proof (Z.div_mod (n - m - k * test_size - gap * k) k ltac:(lia)). nia.
Qed.

Lemma expanding_window_split_tail_witness :
  last [mkFold 0 0 22 22 32; mkFold 1 0 28 28 38; mkFold 2 0 34 34 44;
        mkFold 3 0 40 40 50; mkFold 4 0 46 46 56] = Some (mkFold 4 0 46 46 56)
  ∧ test_end (mkFold 4 0 46 46 56) + (5 - 1) * (10 + 0)
    + (100 - 16 - 5 * 10 - 0 * 5) `mod` 5 = 100.
Proof.
  split; [reflexivity|].
  by apply (expanding_window_split_tail 100 5 10 None 0
              [mkFold 0 0 22 22 32; mkFold 1 0 28 28 38; mkFold 2 0 34 34 44;
               mkFold 3 0 40 40 50; mkFold 4 0 46 46 56] (mkFold 4 0 46 46 56) 16).
Defined.

Lemma slice_within {A : Type} (a b : Z) (xs : list A) :
  0 ≤ a ≤ b → b ≤ Z.of_nat (length xs) →
  slice a b xs = take (Z.to_nat (b - a)) (drop (Z.to_nat a) xs).
Proof.
  intros Hab Hb. unfold slice, slice_bound.
  destruct (Z.ltb_spec a 0), (Z.ltb_spec b 0); try lia.
  by rewrite !Z.min_l by lia.
Qed.

(** A slice within bounds cuts the list in three. *)
Lemma slice_layout {A : Type} (a b : Z) (xs : list A) :
  0 ≤ a ≤ b → b ≤ Z.of_nat (length xs) →
  xs = take (Z.to_nat a) xs ++ slice a b xs ++ drop (Z.to_nat b) xs
  ∧ Z.of_nat (length (slice a b xs)) = b - a.
Proof.
  intros Hab Hb. rewrite slice_within by done. split.
  - rewrite <- (take_drop (Z.to_nat a) xs) at 1. f_equal.
    rewrite <- (take_drop (Z.to_nat (b - a)) (drop (Z.to_nat a) xs)) at 1. f_equal.
    rewrite drop_drop. f_equal. lia.
  - rewrite length_take, length_drop. lia.
Qed.

(** X4. For non-negative [n_folds], [test_size] and [gap], the pairs
    [create_folds] returns in expanding mode are as many as [n_folds], and
    each lies in the data in order: the training rows from the start, then
    [gap] skipped rows, then exactly [test_size] test rows. *)
Theorem create_folds_expanding_layout {A : Type} (data : list A)
    k test_size train_size gap pairs :
  0 ≤ k → 0 ≤ test_size → 0 ≤ gap →
  create_folds data Expanding k test_size train_size gap = Ok pairs →
  length pairs = Z.to_nat k
  ∧ Forall (λ p, ∃ skipped rest,
                data = p.1 ++ skipped ++ p.2 ++ rest
                ∧ Z.of_nat (length skipped) = gap
                ∧ Z.of_nat (length p.2) = test_size) pairs.
Proof.
  intros Hk Hts Hgap Hrun. unfold create_folds in Hrun.
  set (n := Z.of_nat (length data)) in *.
  assert (Hm : default_min_train_size n k None = Ok (n / (k + 1))).
  { apply (default_min_train_size_Ok n k None). lia. }
  set (m := n / (k + 1)) in *.
  assert (0 ≤ m) by (apply Z.div_pos; lia).
  destruct (decide (m + k * test_size + gap * k > n)) as [Hgt|Hle].
  { by rewrite (expanding_window_split_Raise _ _ _ _ _ _ Hm Hgt) in Hrun. }
  rewrite (expanding_window_split_Ok _ _ _ _ _ _ Hm Hle) in Hrun.
  simpl in Hrun. injection Hrun as <-.
  set (step := if k >? 1 then _ else 0).
  assert (Hstep : 0 ≤ step ∧ step * k ≤ n - m - k * test_size - gap * k).
  { subst step. destruct (Z.gtb_spec k 1).
    - apply expanding_step_bounds; lia.
    - nia. }
  destruct Hstep as [Hstep0 Hstepk]. split.
  - by rewrite !length_fmap, length_range.
  - rewrite <- list_fmap_compose. apply Forall_fmap, Forall_forall.
    intros i Hi%elem_of_range. unfold train_slice, test_slice. simpl.
    set (te := m + step * (i + 1)).
    assert (0 ≤ te) by (unfold te; nia).
    assert (te + gap + test_size ≤ n) by (unfold te; nia).
    destruct (slice_layout 0 te data) as [Htrain Hlen1]; [lia|lia|].
    destruct (slice_layout (te + gap) (te + gap + test_size) data) as [Htest Hlen2];
      [lia|lia|].
    exists (slice te (te + gap) data), (drop (Z.to_nat (te + gap + test_size)) data).
    destruct (slice_layout te (te + gap) data) as [Hskip Hlen3]; [lia|lia|].
    split_and!; [|lia|lia].
    rewrite Htest at 1. rewrite !app_assoc. do 2 f_equal.
    rewrite (slice_within 0 te), (slice_within te (te + gap)) by lia.
    rewrite Z.sub_0_r. change (Z.to_nat 0) with 0%nat. rewrite drop_0.
    rewrite take_take_drop. f_equal. lia.
Qed.

Lemma create_folds_expanding_layout_witness :
  length [([1; 2; 3; 4; 5; 6], [7; 8]); ([1; 2; 3; 4; 5; 6; 7; 8], [9; 10])] = Z.to_nat 2
  ∧ Forall (λ p, ∃ skipped rest,
                [1; 2; 3; 4; 5; 6; 7; 8; 9; 10; 11; 12] = p.1 ++ skipped ++ p.2 ++ rest
                ∧ Z.of_nat (length skipped) = 0
                ∧ Z.of_nat (length p.2) = 2)
      [([1; 2; 3; 4; 5; 6], [7; 8]); ([1; 2; 3; 4; 5; 6; 7; 8], [9; 10])].
Proof.
  apply (create_folds_expanding_layout [1; 2; 3; 4; 5; 6; 7; 8; 9; 10; 11; 12]
           2 2 None 0); [lia|lia|lia|reflexivity].
Defined.

End FoldGeneratorMore.

(** ** Cross-validation iterator *)

Section SplitterProperties.
Import Folds Splitter.

Lemma elem_of_arange a b i : i ∈ arange a b ↔ a ≤ i < b.
Proof.
  unfold arange. rewrite list_elem_of_fmap. split.
  - intros (j & -> & Hj). apply elem_of_seq in Hj. lia.
  - intros Hi. exists (Z.to_nat (i - a)). split; [lia|]. apply elem_of_seq. lia.
Qed.

Lemma length_arange a b : Z.of_nat (length (arange a b)) = Z.max 0 (b - a).
Proof. unfold arange. rewrite length_fmap, length_seq. lia. Qed.

Lemma expanding_window_split_length n k test_size mts gap folds :
  0 ≤ k → expanding_window_split n k test_size mts gap = Ok folds →
  Z.of_nat (length folds) = k.
Proof.
  intros Hk Hrun. unfold expanding_window_split in Hrun.
  destruct (default_min_train_size n k mts) as [m|e]; simpl in Hrun; [|done].
  destruct (_ >? _) in Hrun; [done|]. injection Hrun as <-.
  rewrite length_fmap, length_range. lia.
Qed.

(** X5. In expanding mode with non-negative [n_splits], [test_size] and
    [gap], every pair of index arrays [split] yields is usable on [X] and
    free of look-ahead: all indices lie in [0, len(X)), every test index is
    more than [gap] after every training index, and there are exactly
    [test_size] test indices. *)
Theorem split_expanding_no_lookahead {A : Type} (self : TimeSeriesSplit) (X : list A) pairs :
  method self = Expanding →
  0 ≤ n_splits self → 0 ≤ test_size self → 0 ≤ gap self →
  split self X = Ok pairs →
  Forall (λ p, (∀ i, i ∈ p.1 → 0 ≤ i < Z.of_nat (length X))
               ∧ (∀ j, j ∈ p.2 → 0 ≤ j < Z.of_nat (length X))
               ∧ (∀ i j, i ∈ p.1 → j ∈ p.2 → i + gap self < j)
               ∧ Z.of_nat (length p.2) = test_size self) pairs.
Proof.
  intros Hmeth Hk Hts Hgap Hrun. unfold split in Hrun. rewrite Hmeth in Hrun.
  set (n := Z.of_nat (length X)) in *. set (k := n_splits self) in *.
  set (ts := test_size self) in *. set (g := gap self) in *.
  assert (Hm : default_min_train_size n k None = Ok (n / (k + 1))).
  { apply (default_min_train_size_Ok n k None). lia. }
  set (m := n / (k + 1)) in *.
  assert (0 ≤ m) by (apply Z.div_pos; lia).
  destruct (decide (m + k * ts + g * k > n)) as [Hgt|Hle].
  { by rewrite (expanding_window_split_Raise _ _ _ _ _ _ Hm Hgt) in Hrun. }
  rewrite (expanding_window_split_Ok _ _ _ _ _ _ Hm Hle) in Hrun.
  simpl in Hrun. injection Hrun as <-.
  set (step := if k >? 1 then _ else 0).
  assert (Hstep : 0 ≤ step ∧ step * k ≤ n - m - k * ts - g * k).
  { subst step. destruct (Z.gtb_spec k 1).
    - apply expanding_step_bounds; lia.
    - nia. }
  destruct Hstep as [Hstep0 Hstepk].
  rewrite <- list_fmap_compose. apply Forall_fmap, Forall_forall.
  intros i Hi%elem_of_range. simpl.
  set (te := m + step * (i + 1)).
  assert (0 ≤ te) by (unfold te; nia).
  assert (te + g + ts ≤ n) by (unfold te; nia).
  split_and!.
  - intros a Ha%elem_of_arange. lia.
  - intros b Hb%elem_of_arange. lia.
  - intros a b Ha%elem_of_arange Hb%elem_of_arange. lia.
  - rewrite length_arange. lia.
Qed.

Lemma split_expanding_no_lookahead_witness :
  Forall (λ p, (∀ i, i ∈ p.1 → 0 ≤ i < 12)
               ∧ (∀ j, j ∈ p.2 → 0 ≤ j < 12)
               ∧ (∀ i j, i ∈ p.1 → j ∈ p.2 → i + 1 < j)
               ∧ Z.of_nat (length p.2) = 2)
    [([0; 1; 2; 3; 4], [6; 7]); ([0; 1; 2; 3; 4; 5], [7; 8])].
Proof.
  apply (split_expanding_no_lookahead (mkSplit 2 2 1 Expanding None)
           [1; 2; 3; 4; 5; 6; 7; 8; 9; 10; 11; 12]); [done|simpl; lia..|reflexivity].
Defined.

(** X6. Whenever [split] does not raise, it yields as many pairs as
    [get_n_splits] announces, in either mode, for a non-negative
    [n_splits]. *)
Theorem split_yields_n_splits {A : Type} (self : TimeSeriesSplit) (X : list A) pairs :
  0 ≤ n_splits self →
  split self X = Ok pairs →
  Z.of_nat (length pairs) = get_n_splits self.
Proof.
  intros Hk Hrun. unfold split, get_n_splits in *. destruct (method self).
  - destruct (expanding_window_split _ _ _ _ _) as [folds|e] eqn:Hsplit; [|done].
    simpl in Hrun. injection Hrun as <-. rewrite length_fmap.
    by apply (expanding_window_split_length _ _ _ _ _ _ Hk Hsplit).
  - simpl in Hrun. injection Hrun as <-.
    rewrite length_fmap, length_rolling_window_split. lia.
Qed.

Lemma split_yields_n_splits_witness :
  Z.of_nat (length [([0; 1; 2; 3; 4; 5], [6; 7]); ([2; 3; 4; 5; 6; 7], [8; 9]);
                    ([4; 5; 6; 7; 8; 9], [10; 11])])
  = get_n_splits (mkSplit 3 2 0 Rolling (Some 0)).
Proof.
  apply (split_yields_n_splits (mkSplit 3 2 0 Rolling (Some 0))
           [1; 2; 3; 4; 5; 6; 7; 8; 9; 10; 11; 12]); [simpl; lia|reflexivity].
Defined.

End SplitterProperties.

(** ** More on the walk-forward validator *)

Section WalkForwardMore.
Import Validator.
Context {Row Idx Series Frame Summary Model : Type}.
Context `{!Pandas Row Idx Series Frame Summary}.

Abbreviation FoldResult' := (FoldResult Idx Frame).
Abbreviation Validator' := (WalkForwardValidator Idx Frame).

(** With [refit] off, a fold that starts with a model keeps it. *)
Lemma validate_fold_keeps (fit_func : list Row → result (option Model))
    predict_func metric_funcs verbose m i train_data test_data w m'
    (r : FoldResult') w' :
  validate_fold false fit_func predict_func metric_funcs verbose (Some m) i
    train_data test_data w = (Ok (m', r), w') →
  m' = Some m.
Proof.
  unfold validate_fold. cbv zeta. cbn [orb is_None].
  destruct (if verbose then _ else _) as [[]|e]; simpl; [|done].
  destruct (predict_func (Some m) test_data) as [p|e]; simpl; [|done].
  destruct (to_frame p test_data) as [fr|e]; simpl; [|done].
  destruct (calculate_metrics _ _ _ _ _) as [[ms|e] w1]; [|done].
  destruct (index_first train_data) as [a|e]; simpl; [|done].
  destruct (index_last train_data) as [b|e]; simpl; [|done].
  destruct (index_first test_data) as [c|e]; simpl; [|done].
  destruct (index_last test_data) as [d|e]; simpl; [|done].
  by intros [= <- _ _].
Qed.

(** Once a model exists and [refit] is off, the loop does not call
    [fit_func]. *)
Lemma validate_loop_fitted (fit1 fit2 : list Row → result (option Model))
    predict_func metric_funcs verbose folds :
  ∀ m i (results : list FoldResult') w,
    validate_loop false fit1 predict_func metric_funcs verbose (Some m) i folds results w
    = validate_loop false fit2 predict_func metric_funcs verbose (Some m) i folds results w.
Proof.
  induction folds as [|[train_data test_data] rest IH]; intros m i results w; simpl; [done|].
  change (validate_fold false fit1 predict_func metric_funcs verbose (Some m) i
            train_data test_data w)
    with (validate_fold false fit2 predict_func metric_funcs verbose (Some m) i
            train_data test_data w).
  destruct (validate_fold false fit2 _ _ _ _ _ _ _ _) as [[[m' r]|e] w'] eqn:Hfold; [|done].
  apply validate_fold_keeps in Hfold as ->. apply IH.
Qed.

Lemma validate_fold_first_fit refit (fit1 fit2 : list Row → result (option Model))
    predict_func metric_funcs verbose i train_data test_data w :
  fit1 train_data = fit2 train_data →
  validate_fold refit fit1 predict_func metric_funcs verbose None i train_data test_data w
  = (validate_fold refit fit2 predict_func metric_funcs verbose None i
       train_data test_data w : result (option Model * FoldResult') * list string).
Proof. intros Hfit. unfold validate_fold. cbv zeta. by rewrite Hfit. Qed.

(** The model a first fold leaves is what [fit_func] returned. *)
Lemma validate_fold_first_model refit (fit_func : list Row → result (option Model))
    predict_func metric_funcs verbose i train_data test_data w m
    (r : FoldResult') w' :
  validate_fold refit fit_func predict_func metric_funcs verbose None i
    train_data test_data w = (Ok (m, r), w') →
  fit_func train_data = Ok m.
Proof.
  unfold validate_fold. cbv zeta. cbn [is_None]. rewrite orb_true_r.
  destruct (if verbose then _ else _) as [[]|e]; simpl; [|done].
  destruct (fit_func train_data) as [m0|e]; simpl; [|done].
  destruct (predict_func m0 test_data) as [p|e]; simpl; [|done].
  destruct (to_frame p test_data) as [fr|e]; simpl; [|done].
  destruct (calculate_metrics _ _ _ _ _) as [[ms|e] w1]; [|done].
  destruct (index_first train_data) as [a|e]; simpl; [|done].
  destruct (index_last train_data) as [b|e]; simpl; [|done].
  destruct (index_first test_data) as [c|e]; simpl; [|done].
  destruct (index_last test_data) as [d|e]; simpl; [|done].
  by intros [= <- _ _].
Qed.

(** X7. With [refit=False], unless [fit_func] returns [None] on the
    training rows of the first fold, the model is fitted once, on those
    rows: two fit functions that agree on them give the same validation,
    whatever they do elsewhere. *)
Theorem validate_without_refit_fits_once (self : Validator') (data : list Row)
    (fit1 fit2 : list Row → result (option Model)) predict_func metric_funcs verbose :
  refit self = false →
  match Folds.create_folds data (method self) (n_folds self) (test_size self)
          (train_size self) (gap self) with
  | Ok ((train_data, _) :: _) =>
      fit1 train_data = fit2 train_data ∧ fit1 train_data ≠ Ok None
  | _ => True
  end →
  validate self data fit1 predict_func metric_funcs verbose
  = validate self data fit2 predict_func metric_funcs verbose.
Proof.
  intros Hrefit Hfit. unfold validate. rewrite Hrefit.
  destruct (Folds.create_folds _ _ _ _ _ _) as [[|[train_data test_data] rest]|e];
    [done| |done].
  destruct Hfit as [Hfit Hsome].
  cbn [validate_loop]. rewrite (validate_fold_first_fit false fit1 fit2) by done.
  destruct (validate_fold false fit2 _ _ _ _ _ _ _ _) as [[[m r]|e] w] eqn:Hfold; [|done].
  apply validate_fold_first_model in Hfold. rewrite <- Hfit in Hfold.
  destruct m as [m|]; [|done].
  by rewrite (validate_loop_fitted fit1 fit2).
Qed.

Lemma validate_fold_result refit (fit_func : list Row → result (option Model)) predict_func
    metric_funcs verbose model i train_data test_data w m (r : FoldResult') w' :
  validate_fold refit fit_func predict_func metric_funcs verbose model i
    train_data test_data w = (Ok (m, r), w') →
  fold_id r = Z.of_nat i ∧ describes r (train_data, test_data).
Proof.
  unfold validate_fold, describes. cbv zeta. cbn [fst snd].
  match goal with
  | |- context [match ?b with Ok _ => _ | Raise _ => _ end] => destruct b as [[m0 fr]|e]
  end; [|done].
  destruct (calculate_metrics _ _ _ _ _) as [[ms|e] w1]; [|done].
  destruct (index_first train_data) as [a|e]; simpl; [|done].
  destruct (index_last train_data) as [b|e]; simpl; [|done].
  destruct (index_first test_data) as [c|e]; simpl; [|done].
  destruct (index_last test_data) as [d|e]; simpl; [|done].
  intros Heq. injection Heq as <- <- <-. simpl. by split_and!.
Qed.

Lemma validate_loop_results refit (fit_func : list Row → result (option Model)) predict_func
    metric_funcs verbose folds :
  ∀ model i (results0 results : list FoldResult') w0 w,
    validate_loop refit fit_func predict_func metric_funcs verbose model i folds
      results0 w0 = (Ok results, w) →
    ∃ new, results = results0 ++ new
           ∧ Forall2 describes new folds
           ∧ fold_id <$> new = Z.of_nat <$> seq i (length folds).
Proof.
  induction folds as [|[train_data test_data] rest IH];
    intros model i results0 results w0 w Hloop; simpl in Hloop.
  - injection Hloop as <- <-. exists []. by rewrite app_nil_r.
  - destruct (validate_fold _ _ _ _ _ _ _ _ _ _) as [[[m r]|e] w1] eqn:Hfold; [|done].
    apply validate_fold_result in Hfold as [Hid Hdesc].
    apply IH in Hloop as (new & -> & Hall & Hids).
    exists (r :: new). split_and!.
    + by rewrite <- app_assoc.
    + by constructor.
    + by rewrite fmap_cons, Hid, Hids.
Qed.

(** X8. When [validate] returns, it has stored what it returns: one result
    per fold of [create_folds], numbered 0, 1, ... in order, each carrying
    the first and last index labels of its training and test rows.  When
    it raises, the validator is left as it was. *)
Theorem validate_results_shape (self : Validator') (data : list Row)
    (fit_func : list Row → result (option Model)) predict_func metric_funcs verbose :
  match validate self data fit_func predict_func metric_funcs verbose with
  | (Ok results, _, self') =>
      self' = with_results self results
      ∧ ∃ folds,
          Folds.create_folds data (method self) (n_folds self) (test_size self)
            (train_size self) (gap self) = Ok folds
          ∧ Forall2 describes results folds
          ∧ fold_id <$> results = Z.of_nat <$> seq 0 (length folds)
  | (Raise _, _, self') => self' = self
  end.
Proof.
  unfold validate.
  destruct (Folds.create_folds _ _ _ _ _ _) as [folds|e]; [|done].
  destruct (validate_loop _ _ _ _ _ _ _ _ _ _) as [[results|e] w] eqn:Hloop; [|done].
  split; [done|]. exists folds. split; [done|].
  apply validate_loop_results in Hloop as (new & -> & Hall & Hids). done.
Qed.

(** X9. With [n_folds = 0], [validate] succeeds without calling anything
    and stores no result; [summary] and [get_all_predictions] then still
    raise "No results available. Run validate() first.". *)
Theorem validate_no_folds_then_read (self : Validator') (data : list Row)
    (fit_func : list Row → result (option Model)) predict_func metric_funcs verbose :
  n_folds self = 0 →
  validate self data fit_func predict_func metric_funcs verbose
  = (Ok [], [], with_results self [])
  ∧ summary (with_results self []) = (Raise no_results, with_results self [])
  ∧ get_all_predictions (with_results self [])
    = (Raise no_results, with_results self []).
Proof.
  intros Hk. split; [|done]. unfold validate, Folds.create_folds. rewrite Hk.
  destruct (method self); simpl.
  - unfold Folds.expanding_window_split. simpl. rewrite Z.div_1_r.
    destruct (Z.gtb_spec (Z.of_nat (length data) + 0 * test_size self + gap self * 0)
                (Z.of_nat (length data))) as [|_]; [lia|done].
  - done.
Qed.

Lemma calculate_metrics_propagates before name f after e actual pred :
  raises_only_Exception before →
  f actual pred = Raise e → is_Exception (exc_class e) = false →
  ∀ metrics warns,
    ∃ w, calculate_metrics (before ++ (name, f) :: after) actual pred metrics warns
         = (Raise e, w).
Proof.
  intros Hbefore Hf He. induction before as [|[n0 f0] before IH]; intros metrics warns.
  - simpl. rewrite Hf, He. by eexists.
  - simpl. pose proof (raises_only_Exception_cons _ _ Hbefore) as Hrest.
    destruct (f0 actual pred) as [v|e0] eqn:Hf0; [by apply IH|].
    rewrite (Hbefore n0 f0 actual pred e0); [by apply IH|by left|done].
Qed.

Lemma validate_fold_aborts refit (fit_func : list Row → result (option Model)) predict_func
    verbose model i train_data test_data w w0 w0' before name f after e
    (x : option Model * FoldResult') :
  raises_only_Exception before →
  (∀ actual pred, f actual pred = Raise e) →
  is_Exception (exc_class e) = false →
  validate_fold refit fit_func predict_func [] verbose model i train_data test_data w0
  = (Ok x, w0') →
  ∃ w', validate_fold refit fit_func predict_func (before ++ (name, f) :: after)
          verbose model i train_data test_data w
        = (Raise e, w' : list string).
Proof.
  intros Hbefore Hf He. unfold validate_fold. cbv zeta.
  match goal with
  | |- context [match ?b with Ok _ => _ | Raise _ => _ end] => destruct b as [[m fr]|e1]
  end; [|done].
  intros _.
  destruct (calculate_metrics_propagates before name f after e
              (actual_of fr) (pred_of fr) Hbefore (Hf _ _) He ∅ w) as (w' & ->).
  by exists w'.
Qed.

(** X10. An exception that is not an [Exception] (a keyboard interrupt)
    raised by a metric function is not caught: if the folds, the fit and
    the predictions go through, [validate] raises it and leaves the
    validator as it was. *)
Theorem validate_propagates_non_Exception (self : Validator') (data : list Row)
    (fit_func : list Row → result (option Model)) predict_func verbose
    before name f after e rs0 w0 self0 :
  raises_only_Exception before →
  (∀ actual pred, f actual pred = Raise e) →
  is_Exception (exc_class e) = false →
  validate self data fit_func predict_func (Some []) verbose = (Ok rs0, w0, self0) →
  rs0 ≠ [] →
  ∃ w, validate self data fit_func predict_func
         (Some (before ++ (name, f) :: after)) verbose = (Raise e, w, self).
Proof.
  intros Hbefore Hf He. unfold validate.
  destruct (Folds.create_folds _ _ _ _ _ _) as [[|[train_data test_data] rest]|e0];
    [| |done].
  { simpl. by intros [= <- _ _]. }
  cbn [validate_loop].
  destruct (validate_fold _ fit_func predict_func [] _ _ _ _ _ _)
    as [[x|e1] w1] eqn:Hfold; [|done].
  intros _ _.
  destruct (validate_fold_aborts _ _ _ _ _ _ _ _ [] _ _ _ name f after e x
              Hbefore Hf He Hfold) as (w' & ->).
  by exists w'.
Qed.

End WalkForwardMore.

Section WalkForwardMoreExamples.
Import Validator ListFrame ListFrameMore.

Lemma validate_without_refit_fits_once_witness :
  validate (init 2 2 0 Folds.Expanding None false) sample_data
    sample_fit sample_predict (Some sample_metric_funcs) false
  = validate (init 2 2 0 Folds.Expanding None false) sample_data
      fit_six_rows_only sample_predict (Some sample_metric_funcs) false.
Proof.
  by apply (validate_without_refit_fits_once
              (init 2 2 0 Folds.Expanding None false) sample_data
              sample_fit fit_six_rows_only).
Defined.

Lemma validate_no_folds_then_read_witness :
  validate (init 0 2 0 Folds.Rolling None true) sample_data
    sample_fit sample_predict None true
  = (Ok [], [], with_results (init 0 2 0 Folds.Rolling None true) [])
  ∧ summary (with_results (init 0 2 0 Folds.Rolling None true) [])
    = (Raise no_results, with_results (init 0 2 0 Folds.Rolling None true) [])
  ∧ get_all_predictions (with_results (init 0 2 0 Folds.Rolling None true) [])
    = (Raise no_results, with_results (init 0 2 0 Folds.Rolling None true) []).
Proof.
  by apply (validate_no_folds_then_read (init 0 2 0 Folds.Rolling None true)).
Defined.

Lemma validate_propagates_non_Exception_witness :
  ∃ w, validate (init 2 2 0 Folds.Expanding None true) sample_data
         sample_fit sample_predict
         (Some ([("MAE", Metrics.mae); ("BAD", failing_metric)]
                ++ ("STOP", interrupted_metric) :: [("RMSE", Metrics.rmse)])) false
       = (Raise (mkExc KeyboardInterrupt ""), w, init 2 2 0 Folds.Expanding None true).
Proof.
  eapply (validate_propagates_non_Exception
            (init 2 2 0 Folds.Expanding None true) sample_data sample_fit sample_predict
            false [("MAE", Metrics.mae); ("BAD", failing_metric)] "STOP"
            interrupted_metric [("RMSE", Metrics.rmse)] (mkExc KeyboardInterrupt "")).
  - intros name f actual pred e Hin Hr.
    apply sample_metric_funcs_raise_only_Exception with name f actual pred; [|done].
    unfold sample_metric_funcs.
    repeat (apply elem_of_cons in Hin as [[= -> ->]|Hin]);
      [by left|by right; left|by apply elem_of_nil in Hin].
  - done.
  - done.
  - vm_compute. reflexivity.
  - done.
Defined.

End WalkForwardMoreExamples.

(** ** More on the backtester *)

Section BacktesterTraceProofs.
Import Backtest.
Local Open Scope float_scope.

Section Trace.
Context (self : Backtester) (prices signals : list float).
Context (position_sizer : PositionSizer) (max_position : float).

Local Abbreviation step1 := (step self prices signals position_sizer max_position).

Lemma step_all_lengths st i :
  length (a_equity (step1 st i)) = length (a_equity st)
  ∧ length (a_positions (step1 st i)) = length (a_positions st)
  ∧ length (a_cash (step1 st i)) = length (a_cash st)
  ∧ length (a_returns (step1 st i)) = length (a_returns st)
  ∧ length (a_trades (step1 st i)) = length (a_trades st).
Proof. unfold step. destruct (0.001 <? _); simpl; by rewrite !length_insert. Qed.

Lemma step_all_frame st i t :
  t ≠ i →
  a_equity (step1 st i) !!! t = a_equity st !!! t
  ∧ a_positions (step1 st i) !!! t = a_positions st !!! t
  ∧ a_cash (step1 st i) !!! t = a_cash st !!! t
  ∧ a_returns (step1 st i) !!! t = a_returns st !!! t
  ∧ a_trades (step1 st i) !!! t = a_trades st !!! t.
Proof.
  intros Ht. unfold step.
  destruct (0.001 <? _); simpl; by rewrite !list_lookup_total_insert_ne.
Qed.

Lemma step_period_facts n st i :
  length (a_equity st) = n → length (a_positions st) = n → length (a_cash st) = n →
  length (a_returns st) = n → length (a_trades st) = n →
  (1 ≤ i < n)%nat → a_trades st !!! i = 0 →
  period_facts (transaction_cost self) (step1 st i) i.
Proof.
  intros He Hp Hc Hr Ht Hi Hzero. unfold period_facts, step.
  destruct (0.001 <? _) eqn:Htrade; simpl;
    rewrite !list_lookup_total_insert_eq by lia;
    rewrite !list_lookup_total_insert_ne by lia.
  - split; [done|]. right. by split_and!.
  - split; [done|]. left. by split_and!.
Qed.

Lemma simulate_trace :
  (1 ≤ length prices)%nat →
  trace_invariant self (length prices) (length prices - 1)
    (simulate self prices signals position_sizer max_position).
Proof.
  intros Hn. rewrite simulate_eq. apply foldl_step_ind.
  - unfold trace_invariant, initial_arrays, zeros. cbn [a_equity a_positions a_cash a_returns a_trades].
    split_and!; rewrite ?length_insert, ?length_replicate; try done.
    + apply list_lookup_total_insert_eq. rewrite length_replicate. lia.
    + apply list_lookup_total_insert_eq. rewrite length_replicate. lia.
    + apply zeros_lookup.
    + apply zeros_lookup.
    + intros t _. apply zeros_lookup.
    + intros t Ht. lia.
  - intros k st Hk ((He & Hp & Hc & Hr & Ht) & (He0 & Hc0 & Hr0 & Ht0) & Hzero & Hfacts).
    destruct (step_all_lengths st (S k)) as (He' & Hp' & Hc' & Hr' & Ht').
    split_and!; try congruence.
    + destruct (step_all_frame st (S k) 0%nat) as (-> & _); [lia|done].
    + destruct (step_all_frame st (S k) 0%nat) as (_ & _ & -> & _); [lia|done].
    + destruct (step_all_frame st (S k) 0%nat) as (_ & _ & _ & -> & _); [lia|done].
    + destruct (step_all_frame st (S k) 0%nat) as (_ & _ & _ & _ & ->); [lia|done].
    + intros t Hlt. destruct (step_all_frame st (S k) t) as (_ & _ & _ & _ & ->); [lia|].
      apply Hzero. lia.
    + intros t Hle. destruct (decide (t = S k)) as [->|Hne].
      * apply (step_period_facts (length prices)); try done; [lia|]. apply Hzero. lia.
      * unfold period_facts.
        destruct (step_all_frame st (S k) t) as (-> & -> & -> & -> & ->); [lia|].
        destruct (step_all_frame st (S k) (t - 1)%nat) as (-> & -> & -> & _); [lia|].
        apply Hfacts. lia.
Qed.

End Trace.





(** X12. In the frame [run] returns, the first period has no trade, and
    every later period [t] either has trade flag 0, with position and cash
    both carried over from [t - 1], or has trade flag 1, with a position
    change [d] of magnitude above 0.001 and
    [cash[t] = cash[t-1] - d * equity[t-1] - |d * equity[t-1]| * transaction_cost]. *)
Theorem run_dead_band self prices signals position_sizer max_position results self' :
  run self prices signals position_sizer max_position = (Ok results, self') →
  trades results !!! 0%nat = 0
  ∧ ∀ t, (1 ≤ t < length prices)%nat →
      (trades results !!! t = 0
       ∧ position results !!! t = position results !!! (t - 1)%nat
       ∧ cash results !!! t = cash results !!! (t - 1)%nat)
      ∨ (trades results !!! t = 1
         ∧ let d := position results !!! t - position results !!! (t - 1)%nat in
           (0.001 <? abs d) = true
           ∧ cash results !!! t
             = cash results !!! (t - 1)%nat - d * equity results !!! (t - 1)%nat
               - abs (d * equity results !!! (t - 1)%nat) * transaction_cost self).
Proof.
  unfold run. destruct prices as [|p0 prices']; [done|].
  set (prices := p0 :: prices').
  set (sizer := match position_sizer with Some f => f | None => _ end).
  set (sigs := reindex_fillna _ _).
  intros [= <- _]. cbn [trades position cash equity].
  destruct (simulate_trace self prices sigs sizer max_position)
    as (_ & (_ & _ & _ & Ht0) & _ & Hfacts); [simpl; lia|].
  split; [done|]. intros t Ht. destruct (Hfacts t) as [_ Hcase]; [lia|]. exact Hcase.
Qed.

Lemma run_dead_band_witness :
  ∃ results self',
    run (init 100000 0.001 0.0005) [100; 102; 101] [1; 1; 1] None 1 = (Ok results, self')
    ∧ trades results !!! 0%nat = 0
    ∧ ∀ t, (1 ≤ t < 3)%nat →
        (trades results !!! t = 0
         ∧ position results !!! t = position results !!! (t - 1)%nat
         ∧ cash results !!! t = cash results !!! (t - 1)%nat)
        ∨ (trades results !!! t = 1
           ∧ let d := position results !!! t - position results !!! (t - 1)%nat in
             (0.001 <? abs d) = true
             ∧ cash results !!! t
               = cash results !!! (t - 1)%nat - d * equity results !!! (t - 1)%nat
                 - abs (d * equity results !!! (t - 1)%nat) * 0.001).
Proof.
  eexists _, _. split; [reflexivity|].
  eapply (run_dead_band (init 100000 0.001 0.0005) [100; 102; 101] [1; 1; 1] None 1).
  reflexivity.
Defined.

(** X13. In the frame [run] returns, equity and cash start at the initial
    capital and the first return is 0; every later return is
    [equity[t] / equity[t-1] - 1]. *)
Theorem run_returns self prices signals position_sizer max_position results self' :
  run self prices signals position_sizer max_position = (Ok results, self') →
  equity results !!! 0%nat = initial_capital self
  ∧ cash results !!! 0%nat = initial_capital self
  ∧ returns results !!! 0%nat = 0
  ∧ ∀ t, (1 ≤ t < length prices)%nat →
      returns results !!! t
      = equity results !!! t / equity results !!! (t - 1)%nat - 1.
Proof.
  unfold run. destruct prices as [|p0 prices']; [done|].
  set (prices := p0 :: prices').
  set (sizer := match position_sizer with Some f => f | None => _ end).
  set (sigs := reindex_fillna _ _).
  intros [= <- _]. cbn [returns cash equity].
  destruct (simulate_trace self prices sigs sizer max_position)
    as (_ & (He0 & Hc0 & Hr0 & _) & _ & Hfacts); [simpl; lia|].
  split_and!; try done. intros t Ht. destruct (Hfacts t) as [Hret _]; [lia|]. exact Hret.
Qed.

Lemma run_returns_witness :
  ∃ results self',
    run (init 100000 0.001 0.0005) [100; 102; 101] [1; 1; 1] None 1 = (Ok results, self')
    ∧ equity results !!! 0%nat = 100000
    ∧ cash results !!! 0%nat = 100000
    ∧ returns results !!! 0%nat = 0
    ∧ ∀ t, (1 ≤ t < 3)%nat →
        returns results !!! t
        = equity results !!! t / equity results !!! (t - 1)%nat - 1.
Proof.
  eexists _, _. split; [reflexivity|].
  eapply (run_returns (init 100000 0.001 0.0005) [100; 102; 101] [1; 1; 1] None 1).
  reflexivity.
Defined.

End BacktesterTraceProofs.

(** ** More on the trading metrics *)

Section TradingMetricsMore.
Import Metrics.
Local Open Scope float_scope.

Lemma max_drawdown_Ok equity_curve :
  ∃ max_dd peak trough,
    max_drawdown equity_curve = Ok (max_dd, peak, trough)
    ∧ (peak ≤ trough)%nat ∧ (trough < Nat.max 1 (length equity_curve))%nat.
Proof.
  unfold max_drawdown.
  destruct (Nat.ltb_spec (length equity_curve) 2) as [|Hlen].
  { exists 0, 0%nat, 0%nat. split; [done|]. lia. }
  destruct (argmin_spec (drawdown_series equity_curve)) as (trough & -> & Htrough & _).
  { intros Hnil. apply (f_equal length) in Hnil.
    rewrite length_drawdown_series in Hnil. simpl in Hnil. lia. }
  simpl. rewrite length_drawdown_series in Htrough.
  destruct (argmax_spec (take (trough + 1) equity_curve)) as (peak & -> & Hpeak & _).
  { intros Hnil. apply (f_equal length) in Hnil.
    rewrite length_take in Hnil. simpl in Hnil. lia. }
  simpl. rewrite length_take in Hpeak. eexists _, peak, trough. split; [done|]. lia.
Qed.

(** X14. [max_drawdown] never raises, and the indices it returns are in
    order and in range: the peak is not after the trough, and the trough
    is an index of the curve (and 0 for a curve of fewer than two
    values). *)
Theorem max_drawdown_indices equity_curve :
  ∃ max_dd peak trough,
    max_drawdown equity_curve = Ok (max_dd, peak, trough)
    ∧ (peak ≤ trough)%nat ∧ (trough < Nat.max 1 (length equity_curve))%nat.
Proof. apply max_drawdown_Ok. Qed.

Lemma sharpe_ratio_Ok returns risk_free_rate periods_per_year :
  periods_per_year ≠ 0%Z →
  ∃ v, sharpe_ratio returns risk_free_rate periods_per_year = Ok v.
Proof.
  intros Hp. unfold sharpe_ratio, float_div_int.
  destruct (_ <? 2)%nat; [by eexists|].
  destruct (Z.eqb_spec periods_per_year 0) as [|_]; [done|]. simpl.
  destruct (_ <? _); by eexists.
Qed.

Lemma sortino_ratio_Ok returns risk_free_rate periods_per_year :
  periods_per_year ≠ 0%Z →
  ∃ v, sortino_ratio returns risk_free_rate periods_per_year = Ok v.
Proof.
  intros Hp. unfold sortino_ratio, float_div_int.
  destruct (_ <? 2)%nat; [by eexists|].
  destruct (Z.eqb_spec periods_per_year 0) as [|_]; [done|]. simpl.
  destruct (_ <? 2)%nat; [by eexists|].
  destruct (_ <? 1e-10); by eexists.
Qed.

(** X15. Once [run] has returned, [summary] does not raise: it returns
    the ten entries, in the order of the source, and leaves the
    backtester as it is. *)
Theorem summary_after_run pow self prices signals position_sizer max_position
    results self' :
  Backtest.run self prices signals position_sizer max_position = (Ok results, self') →
  ∃ entries,
    Backtest.summary pow self' = (Ok entries, self')
    ∧ entries.*1
      = ["Total Return (%)"; "Annual Return (%)"; "Annual Volatility (%)";
         "Sharpe Ratio"; "Sortino Ratio"; "Max Drawdown (%)"; "Win Rate (%)";
         "Profit Factor"; "Total Trades"; "Final Equity"].
Proof.
  intros Hrun. unfold Backtest.run in Hrun.
  destruct prices as [|p0 prices']; [done|]. injection Hrun as <- <-.
  unfold Backtest.summary. cbn [Backtest.results_ Backtest.returns Backtest.equity].
  match goal with
  | |- context [max_drawdown ?eq] =>
      destruct (max_drawdown_Ok eq) as (dd & peak & trough & -> & _)
  end.
  match goal with
  | |- context [sharpe_ratio ?rs 0 252] =>
      destruct (sharpe_ratio_Ok rs 0 252 ltac:(done)) as (sh & ->);
      destruct (sortino_ratio_Ok rs 0 252 ltac:(done)) as (so & ->)
  end.
  simpl. by eexists.
Qed.

Lemma summary_after_run_witness :
  ∃ results self' entries,
    Backtest.run (Backtest.init 100000 0.001 0.0005) [100; 102; 101] [1; 1; 1] None 1
    = (Ok results, self')
    ∧ Backtest.summary (λ x _, x) self' = (Ok entries, self')
    ∧ entries.*1
      = ["Total Return (%)"; "Annual Return (%)"; "Annual Volatility (%)";
         "Sharpe Ratio"; "Sortino Ratio"; "Max Drawdown (%)"; "Win Rate (%)";
         "Profit Factor"; "Total Trades"; "Final Equity"].
Proof.
  eexists _, _.
  destruct (summary_after_run (λ x _, x) (Backtest.init 100000 0.001 0.0005)
              [100; 102; 101] [1; 1; 1] None 1 _ _ eq_refl) as (entries & Hs & Hnames).
  exists entries. by split_and!.
Defined.

End TradingMetricsMore.

(** ** A backtest on flat signals *)

Section FlatSignals.
Import Backtest.
Local Open Scope float_scope.

Lemma sf_zero_inv r s : Prim2SF r = S754_zero s → is_zero_return r.
Proof.
  intros Hr. destruct s; [right|left]; apply Prim2SF_inj; by rewrite Hr.
Qed.

Lemma zero_return_sf r : is_zero_return r → ∃ s, Prim2SF r = S754_zero s.
Proof. intros [->| ->]; by eexists. Qed.

Lemma is_nan_inv r : is_nan r = true → r = nan.
Proof. intros Hr%is_nan_true. apply Prim2SF_inj. by rewrite Hr. Qed.

Lemma mul_zero_return z m : is_zero_return z → is_zero_return (z * m) ∨ z * m = nan.
Proof.
  intros (s & Hz)%zero_return_sf.
  pose proof (FloatAxioms.mul_spec z m) as Hmul. rewrite Hz in Hmul.
  destruct (Prim2SF m) as [sm|sm| |sm mm em] eqn:Hm; simpl in Hmul.
  - left. by eapply sf_zero_inv.
  - right. apply Prim2SF_inj. by rewrite Hmul.
  - right. apply Prim2SF_inj. by rewrite Hmul.
  - left. by eapply sf_zero_inv.
Qed.

Lemma key_zero_inv r : not_nan r → (fkey r).1.1 = 0%Z → is_zero_return r.
Proof.
  unfold not_nan, fkey. intros Hn Hk.
  destruct (Prim2SF r) as [s|[]| |[] m e] eqn:Hr; simpl in Hk; try done.
  by eapply sf_zero_inv.
Qed.

Lemma zero_return_key z : is_zero_return z → not_nan z ∧ fkey z = (0, 0, 0)%Z.
Proof. by intros [->| ->]. Qed.

(** Clipping a zero to [±m], [m ≥ 0], leaves a zero. *)
Lemma clip_zero_return z m :
  (0 <=? m) = true → is_zero_return z → is_zero_return (Np.clip z (- m) m).
Proof.
  intros Hm Hz. destruct (zero_return_key z Hz) as [Hnz Hkz].
  assert (Hk0 : fkey 0 = (0, 0, 0)%Z) by reflexivity.
  apply leb_true in Hm as (_ & Hnm & Hm). rewrite Hk0 in Hm.
  assert (Hnm' : not_nan (- m)) by by apply not_nan_opp.
  unfold Np.clip. rewrite (proj2 (is_nan_false z) Hnz).
  destruct (- m <? z) eqn:Hlo.
  - rewrite (proj2 (is_nan_false z) Hnz).
    destruct (z <? m) eqn:Hhi; [done|].
    apply (ltb_false _ _ Hnz Hnm) in Hhi. apply key_zero_inv; [done|].
    rewrite Hkz in Hhi. unfold kle, klt, keq in *. simpl in *. lia.
  - apply (ltb_false _ _ Hnm' Hnz) in Hlo. rewrite fkey_opp, Hkz in Hlo.
    assert (Hzero : is_zero_return (- m)).
    { apply key_zero_inv; [done|]. rewrite fkey_opp.
      unfold kle, klt, keq, kopp in *. simpl in *. lia. }
    rewrite (proj2 (is_nan_false (- m)) Hnm').
    destruct (- m <? m) eqn:Hhi; [done|].
    apply (ltb_false _ _ Hnm' Hnm) in Hhi. apply key_zero_inv; [done|].
    rewrite fkey_opp in Hhi. unfold kle, klt, keq, kopp in *. simpl in *. lia.
Qed.

(** The default sizer on a zero signal never passes the dead-band from a
    zero position. *)
Lemma flat_target_no_trade s m :
  (0 <=? m) = true → is_zero_return s →
  (0.001 <? abs (Np.clip (s * m) (- m) m - 0)) = false.
Proof.
  intros Hm Hs. destruct (mul_zero_return s m Hs) as [Hz| ->].
  - by destruct (clip_zero_return _ m Hm Hz) as [->| ->].
  - by rewrite clip_nan.
Qed.

Lemma reindex_fillna_zero n signals j :
  Forall (λ s, is_zero_return s ∨ is_nan s = true) signals →
  is_zero_return (reindex_fillna n signals !!! j).
Proof.
  intros Hall. unfold reindex_fillna.
  rewrite list_lookup_total_alt, list_lookup_fmap.
  destruct (seq 0 n !! j) as [i|]; simpl; [|by left].
  destruct (signals !! i) as [s|] eqn:Hs; simpl; [|by left].
  rewrite Forall_forall in Hall.
  destruct (Hall s) as [Hz|Hnan]; [by eapply list_elem_of_lookup_2| |].
  - by destruct Hz as [->| ->]; [left|right].
  - rewrite Hnan. by left.
Qed.

Section Flat.
Context (self : Backtester) (prices signals : list float) (max_position : float).
Context (Hmax : (0 <=? max_position) = true).
Context (Hflat : ∀ j, is_zero_return (signals !!! j)).

Local Abbreviation flat_step :=
  (step self prices signals (λ s p v, s * max_position) max_position).

Lemma flat_step_arrays st i :
  a_positions st !!! (i - 1)%nat = 0 →
  a_positions (flat_step st i) = <[i := 0]> (a_positions st)
  ∧ a_cash (flat_step st i) = <[i := a_cash st !!! (i - 1)%nat]> (a_cash st)
  ∧ a_trades (flat_step st i) = a_trades st
  ∧ length (a_equity (flat_step st i)) = length (a_equity st).
Proof.
  intros Hprev. unfold step. rewrite Hprev.
  rewrite (flat_target_no_trade _ _ Hmax (Hflat (i - 1)%nat)). simpl.
  by rewrite length_insert.
Qed.

Lemma flat_simulate :
  let st := simulate self prices signals (λ s p v, s * max_position) max_position in
  (∀ t, a_positions st !!! t = 0) ∧ (∀ t, a_trades st !!! t = 0)
  ∧ ∀ t, (t < length prices)%nat → a_cash st !!! t = initial_capital self.
Proof.
  cbv zeta. rewrite simulate_eq.
  cut (let st := foldl flat_step (initial_arrays self (length prices))
                   (seq 1 (length prices - 1)) in
       length (a_cash st) = length prices
       ∧ (∀ t, a_positions st !!! t = 0) ∧ (∀ t, a_trades st !!! t = 0)
       ∧ ∀ t, (t ≤ length prices - 1)%nat → (t < length prices)%nat →
              a_cash st !!! t = initial_capital self).
  { cbv zeta. intros (_ & Hp & Ht & Hc). split_and!; [done|done|].
    intros t Hlt. apply Hc; lia. }
  cbv zeta.
  apply (foldl_step_ind self prices signals (λ s p v, s * max_position) max_position
           (λ k st, length (a_cash st) = length prices
                    ∧ (∀ t, a_positions st !!! t = 0) ∧ (∀ t, a_trades st !!! t = 0)
                    ∧ ∀ t, (t ≤ k)%nat → (t < length prices)%nat →
                           a_cash st !!! t = initial_capital self)).
  - unfold initial_arrays, zeros. cbn [a_positions a_trades a_cash]. split_and!.
    + by rewrite length_insert, length_replicate.
    + intros t. apply (initial_positions_lookup self).
    + intros t. apply zeros_lookup.
    + intros t Ht Hlt. replace t with 0%nat by lia.
      apply list_lookup_total_insert_eq. rewrite length_replicate. lia.
  - intros k st Hk (Hlen & Hp & Ht & Hc).
    destruct (flat_step_arrays st (S k) (Hp _)) as (Hp' & Hc' & Ht' & _).
    rewrite Hp', Hc', Ht'. split_and!.
    + by rewrite length_insert.
    + intros t. destruct (decide (t = S k)) as [->|Hne].
      * destruct (decide (S k < length (a_positions st))%nat).
        -- by apply list_lookup_total_insert_eq.
        -- rewrite list_insert_ge by lia. apply Hp.
      * rewrite list_lookup_total_insert_ne by done. apply Hp.
    + done.
    + intros t Hle Hlt. destruct (decide (t = S k)) as [->|Hne].
      * rewrite list_lookup_total_insert_eq by lia.
        replace (S k - 1)%nat with k by lia. apply Hc; lia.
      * rewrite list_lookup_total_insert_ne by done. apply Hc; lia.
Qed.

End Flat.

(** X16. With signals that are all zero, NaN or missing, the default
    sizer and [max_position ≥ 0], a backtest never trades: every position
    and every trade flag is 0 and the cash stays at the initial capital. *)
Theorem run_flat_signals self prices signals max_position results self' :
  (0 <=? max_position) = true →
  Forall (λ s, is_zero_return s ∨ is_nan s = true) signals →
  run self prices signals None max_position = (Ok results, self') →
  ∀ t, (t < length prices)%nat →
    position results !!! t = 0 ∧ trades results !!! t = 0
    ∧ cash results !!! t = initial_capital self.
Proof.
  intros Hmax Hflat. unfold run. destruct prices as [|p0 prices']; [done|].
  set (prices := p0 :: prices'). intros [= <- _] t Ht. cbn [position trades cash].
  destruct (flat_simulate self prices (reindex_fillna (length prices) signals)
              max_position Hmax) as (Hp & Htr & Hc).
  { intros j. by apply reindex_fillna_zero. }
  split_and!; [apply Hp|apply Htr|by apply Hc].
Qed.

Lemma run_flat_signals_witness :
  ∃ results self',
    run (init 100000 0.001 0.0005) [100; 102; 101; 99] [0; nan] None 1
    = (Ok results, self')
    ∧ ∀ t, (t < 4)%nat →
        position results !!! t = 0 ∧ trades results !!! t = 0
        ∧ cash results !!! t = 100000.
Proof.
  eexists _, _. split; [reflexivity|].
  eapply (run_flat_signals (init 100000 0.001 0.0005) [100; 102; 101; 99] [0; nan] 1);
    [reflexivity| |reflexivity].
  repeat constructor; by (left; left) || right.
Defined.

End FlatSignals.

(** ** Rolling folds that fit, and successive expanding folds *)

Section RollingFoldsMore.
Import Folds Splitter.

Lemma drop_slice {A : Type} (a b : Z) (xs : list A) :
  0 ≤ a ≤ b → b ≤ Z.of_nat (length xs) →
  drop (Z.to_nat a) xs = slice a b xs ++ drop (Z.to_nat b) xs.
Proof.
  intros Hab Hb. destruct (slice_layout a b xs Hab Hb) as [Heq _].
  rewrite <- (take_drop (Z.to_nat a) xs) in Heq at 1. by apply app_inv_head in Heq.
Qed.

(** X17. In rolling mode, when one training window, the gap and one test
    window fit in [X], every pair of index arrays [split] yields is usable
    on [X] and free of look-ahead: all indices lie in [0, len(X)), every
    test index is more than [gap] after every training index, and there
    are exactly [train_size] (or [len(X) // 2]) training and [test_size]
    test indices. *)
Theorem split_rolling_no_lookahead {A : Type} (self : TimeSeriesSplit) (X : list A) pairs :
  method self = Rolling →
  0 ≤ train_size_or (train_size self) (Z.of_nat (length X) / 2) →
  0 ≤ test_size self → 0 ≤ gap self →
  train_size_or (train_size self) (Z.of_nat (length X) / 2) + gap self + test_size self
  ≤ Z.of_nat (length X) →
  split self X = Ok pairs →
  Forall (λ p, (∀ i, i ∈ p.1 → 0 ≤ i < Z.of_nat (length X))
               ∧ (∀ j, j ∈ p.2 → 0 ≤ j < Z.of_nat (length X))
               ∧ (∀ i j, i ∈ p.1 → j ∈ p.2 → i + gap self < j)
               ∧ Z.of_nat (length p.1)
                 = train_size_or (train_size self) (Z.of_nat (length X) / 2)
               ∧ Z.of_nat (length p.2) = test_size self) pairs.
Proof.
  intros Hmeth Htr Hts Hgap Hfit Hrun. unfold split in Hrun. rewrite Hmeth in Hrun.
  set (n := Z.of_nat (length X)) in *. set (k := n_splits self) in *.
  set (ts := test_size self) in *. set (g := gap self) in *.
  set (tr := train_size_or (train_size self) (n / 2)) in *.
  simpl in Hrun. injection Hrun as <-.
  unfold rolling_window_split. rewrite rolling_loop_fmap, <- list_fmap_compose.
  apply Forall_fmap, Forall_forall. intros i Hi%elem_of_range. simpl.
  pose proof (rolling_step_bounds n k tr ts g i Hfit Hi) as [H0 Hn].
  cbv zeta in H0, Hn. set (a := rolling_step n k tr ts g * i) in *.
  split_and!.
  - intros x Hx%elem_of_arange. lia.
  - intros x Hx%elem_of_arange. lia.
  - intros x y Hx%elem_of_arange Hy%elem_of_arange. lia.
  - rewrite length_arange. lia.
  - rewrite length_arange. lia.
Qed.

Lemma split_rolling_no_lookahead_witness :
  Forall (λ p, (∀ i, i ∈ p.1 → 0 ≤ i < 12)
               ∧ (∀ j, j ∈ p.2 → 0 ≤ j < 12)
               ∧ (∀ i j, i ∈ p.1 → j ∈ p.2 → i + 1 < j)
               ∧ Z.of_nat (length p.1) = 6
               ∧ Z.of_nat (length p.2) = 2)
    [([0; 1; 2; 3; 4; 5], [7; 8]); ([1; 2; 3; 4; 5; 6], [8; 9]);
     ([2; 3; 4; 5; 6; 7], [9; 10])].
Proof.
  apply (split_rolling_no_lookahead (mkSplit 3 2 1 Rolling None)
           [1; 2; 3; 4; 5; 6; 7; 8; 9; 10; 11; 12]);
    [done|by vm_compute|simpl; lia|simpl; lia|by vm_compute|reflexivity].
Defined.

(** X18. In rolling mode, when one training window, the gap and one test
    window fit in the data, [create_folds] returns [n_folds] pairs and each
    lies in the data in order: [train_size] (or [len(data) // 2]) training
    rows, then [gap] skipped rows, then [test_size] test rows. *)
Theorem create_folds_rolling_layout {A : Type} (data : list A)
    k test_size train_size gap pairs :
  0 ≤ default (Z.of_nat (length data) / 2) train_size →
  0 ≤ test_size → 0 ≤ gap →
  default (Z.of_nat (length data) / 2) train_size + gap + test_size
  ≤ Z.of_nat (length data) →
  create_folds data Rolling k test_size train_size gap = Ok pairs →
  length pairs = Z.to_nat k
  ∧ Forall (λ p, ∃ before skipped rest,
                data = before ++ p.1 ++ skipped ++ p.2 ++ rest
                ∧ Z.of_nat (length p.1) = default (Z.of_nat (length data) / 2) train_size
                ∧ Z.of_nat (length skipped) = gap
                ∧ Z.of_nat (length p.2) = test_size) pairs.
Proof.
  intros Htr Hts Hgap Hfit Hrun. unfold create_folds in Hrun.
  set (n := Z.of_nat (length data)) in *.
  replace (match train_size with Some t => t | None => n / 2 end)
    with (default (n / 2) train_size) in Hrun by by destruct train_size.
  set (tr := default (n / 2) train_size) in *.
  simpl in Hrun. injection Hrun as <-. split.
  - by rewrite length_fmap, length_rolling_window_split.
  - unfold rolling_window_split. rewrite rolling_loop_fmap, <- list_fmap_compose.
    apply Forall_fmap, Forall_forall. intros i Hi%elem_of_range.
    unfold train_slice, test_slice. simpl.
    pose proof (rolling_step_bounds n k tr test_size gap i Hfit Hi) as [H0 Hn].
    cbv zeta in H0, Hn. set (a := rolling_step n k tr test_size gap * i) in *.
    rewrite Z.min_l by lia.
    exists (take (Z.to_nat a) data), (slice (a + tr) (a + tr + gap) data),
      (drop (Z.to_nat (a + tr + gap + test_size)) data).
    split_and!.
    + rewrite <- (take_drop (Z.to_nat a) data) at 1. f_equal.
      rewrite (drop_slice a (a + tr)) by (fold n; lia). f_equal.
      rewrite (drop_slice (a + tr) (a + tr + gap)) by (fold n; lia). f_equal.
      apply drop_slice; fold n; lia.
    + destruct (slice_layout a (a + tr) data) as [_ ->]; fold n; lia.
    + destruct (slice_layout (a + tr) (a + tr + gap) data) as [_ ->]; fold n; lia.
    + destruct (slice_layout (a + tr + gap) (a + tr + gap + test_size) data) as [_ ->];
        fold n; lia.
Qed.

Lemma create_folds_rolling_layout_witness :
  length [([1; 2; 3; 4; 5; 6], [8; 9]); ([2; 3; 4; 5; 6; 7], [9; 10]);
          ([3; 4; 5; 6; 7; 8], [10; 11])] = Z.to_nat 3
  ∧ Forall (λ p, ∃ before skipped rest,
                [1; 2; 3; 4; 5; 6; 7; 8; 9; 10; 11; 12]
                = before ++ p.1 ++ skipped ++ p.2 ++ rest
                ∧ Z.of_nat (length p.1) = 6
                ∧ Z.of_nat (length skipped) = 1
                ∧ Z.of_nat (length p.2) = 2)
      [([1; 2; 3; 4; 5; 6], [8; 9]); ([2; 3; 4; 5; 6; 7], [9; 10]);
       ([3; 4; 5; 6; 7; 8], [10; 11])].
Proof.
  apply (create_folds_rolling_layout [1; 2; 3; 4; 5; 6; 7; 8; 9; 10; 11; 12]
           3 2 None 1); [by vm_compute|lia|lia|by vm_compute|reflexivity].
Defined.

Lemma lookup_range k i z : range k !! i = Some z → z = Z.of_nat i ∧ z < k.
Proof.
  unfold range. rewrite list_lookup_fmap. intros Hz.
  destruct (seq 0 (Z.to_nat k) !! i) as [j|] eqn:Hj; [|done].
  apply lookup_seq in Hj as [-> Hlt]. injection Hz as <-. lia.
Qed.

(** X19. In an accepted expanding split, each fold's training window ends
    [step] observations after the previous one's and its test window
    starts [step - test_size] after the previous test window ended, where
    [step = (n_samples - min_train_size - n_folds * test_size
    - gap * n_folds) // n_folds]: successive test windows share
    [test_size - step] observations whenever [step < test_size]. *)
Theorem expanding_window_split_successive n k test_size mts gap m folds i f g :
  default_min_train_size n k mts = Ok m →
  expanding_window_split n k test_size mts gap = Ok folds →
  folds !! i = Some f → folds !! S i = Some g →
  train_end g = train_end f + (n - m - k * test_size - gap * k) / k
  ∧ test_start g = test_end f + ((n - m - k * test_size - gap * k) / k - test_size).
Proof.
  intros Hm Hrun Hf Hg.
  destruct (decide (m + k * test_size + gap * k > n)) as [Hgt|Hle].
  { by rewrite (expanding_window_split_Raise _ _ _ _ _ _ Hm Hgt) in Hrun. }
  rewrite (expanding_window_split_Ok _ _ _ _ _ _ Hm Hle) in Hrun. injection Hrun as <-.
  rewrite list_lookup_fmap in Hf, Hg.
  destruct (range k !! i) as [zi|] eqn:Hi; [|done].
  destruct (range k !! S i) as [zj|] eqn:Hj; [|done].
  apply lookup_range in Hi as [-> _]. apply lookup_range in Hj as [-> Hk].
  injection Hf as <-. injection Hg as <-.
  destruct (Z.gtb_spec k 1) as [_|]; [|lia]. simpl. lia.
Qed.

Lemma expanding_window_split_successive_witness :
  train_end (mkFold 1 0 28 28 38) = train_end (mkFold 0 0 22 22 32)
                                    + (100 - 16 - 5 * 10 - 0 * 5) / 5
  ∧ test_start (mkFold 1 0 28 28 38)
    = test_end (mkFold 0 0 22 22 32) + ((100 - 16 - 5 * 10 - 0 * 5) / 5 - 10).
Proof.
  by apply (expanding_window_split_successive 100 5 10 None 0 16
              [mkFold 0 0 22 22 32; mkFold 1 0 28 28 38; mkFold 2 0 34 34 44;
               mkFold 3 0 40 40 50; mkFold 4 0 46 46 56] 0).
Defined.

End RollingFoldsMore.

(** ** Interval scores *)

Section IntervalScores.
Import Metrics Intervals.
Local Open Scope float_scope.

Lemma getitem_Some xs i x : xs !! i = Some x → getitem xs i = Ok x.
Proof. unfold getitem. by intros ->. Qed.

Lemma broadcast2_same_length f xs ys :
  length xs = length ys → broadcast2 f xs ys = Ok (zip_with f xs ys).
Proof. intros Hlen. unfold broadcast2. by rewrite (proj2 (Nat.eqb_eq _ _) Hlen). Qed.

Section Loop.
Context (actual lower upper : list float) (alpha : float).
Context (Hlower : length lower = length actual) (Hupper : length upper = length actual).

Local Abbreviation width := (zip_with sub upper lower).

(** What one pass of the loop reads at an index of [actual], when
    [scores] is a [float64] array. *)
Lemma winkler_step_reads scores i :
  (i < length actual)%nat →
  winkler_step Ok actual lower upper width alpha scores i
  = if actual !!! i <? lower !!! i then
      let? c := two_over alpha in
      Ok (<[i := width !!! i + c * (lower !!! i - actual !!! i)]> scores)
    else if upper !!! i <? actual !!! i then
      let? c := two_over alpha in
      Ok (<[i := width !!! i + c * (actual !!! i - upper !!! i)]> scores)
    else Ok (<[i := width !!! i]> scores).
Proof.
  intros Hi.
  destruct (lookup_lt_is_Some_2 actual i Hi) as [a Ha].
  destruct (lookup_lt_is_Some_2 lower i ltac:(lia)) as [l Hl].
  destruct (lookup_lt_is_Some_2 upper i ltac:(lia)) as [u Hu].
  assert (Hw : width !! i = Some (u - l)) by by rewrite lookup_zip_with, Hu, Hl.
  rewrite (list_lookup_total_correct _ _ _ Ha), (list_lookup_total_correct _ _ _ Hl),
    (list_lookup_total_correct _ _ _ Hu), (list_lookup_total_correct _ _ _ Hw).
  unfold winkler_step.
  rewrite (getitem_Some _ _ _ Ha), (getitem_Some _ _ _ Hl), (getitem_Some _ _ _ Hu),
    (getitem_Some _ _ _ Hw). simpl.
  destruct (a <? l); [by destruct (two_over alpha)|].
  destruct (u <? a); [by destruct (two_over alpha)|done].
Qed.

Lemma winkler_loop_inside m : ∀ k scores,
  (k + m = length actual)%nat → length scores = length actual →
  take k scores = take k width →
  (∀ i, (k ≤ i < length actual)%nat → outside actual lower upper i = false) →
  winkler_loop Ok actual lower upper width alpha (seq k m) scores = Ok width.
Proof.
  assert (Hwlen : length width = length actual) by (rewrite length_zip_with; lia).
  induction m as [|m IH]; intros k scores Hk Hlen Htake Hin; simpl.
  - rewrite <- (firstn_all scores), <- (firstn_all width), Hlen, Hwlen.
    replace (length actual) with k by lia. by rewrite Htake.
  - rewrite winkler_step_reads by lia.
    specialize (Hin k ltac:(lia)) as Hk'. unfold outside in Hk'.
    apply orb_false_iff in Hk' as [-> ->]. simpl.
    apply IH; [lia|by rewrite length_insert| |intros i Hi; apply Hin; lia].
    destruct (lookup_lt_is_Some_2 width k ltac:(lia)) as [w Hw].
    rewrite (list_lookup_total_correct _ _ _ Hw), (take_S_r width k w Hw).
    rewrite (take_S_r _ k w) by (apply list_lookup_insert_eq; lia).
    by rewrite take_insert_ge, Htake by lia.
Qed.

Lemma winkler_loop_outside m : ∀ k scores j,
  (k + m = length actual)%nat → (k ≤ j < length actual)%nat →
  outside actual lower upper j = true → (alpha =? 0) = true →
  winkler_loop Ok actual lower upper width alpha (seq k m) scores = Raise zero_division.
Proof.
  induction m as [|m IH]; intros k scores j Hk Hj Hout Hz; simpl; [lia|].
  rewrite winkler_step_reads by lia. unfold two_over. rewrite Hz.
  destruct (actual !!! k <? lower !!! k) eqn:Hlo; [done|].
  destruct (upper !!! k <? actual !!! k) eqn:Hhi; [done|]. simpl.
  apply (IH _ _ j); [lia| |done|done].
  destruct (decide (j = k)) as [->|]; [|lia].
  unfold outside in Hout. by rewrite Hlo, Hhi in Hout.
Qed.

End Loop.

(** X20. For [float64] arrays of one length, when no observation lies
    outside its interval the Winkler score is the mean interval width,
    whatever [alpha] is (0 included): [winkler_score] and [interval_width]
    return the same value. *)
Theorem winkler_score_inside store_int64 actual lower upper alpha :
  length lower = length actual → length upper = length actual →
  (∀ i, (i < length actual)%nat → outside actual lower upper i = false) →
  winkler_score store_int64 (FloatArray actual) lower upper alpha
  = interval_width lower upper.
Proof.
  intros Hl Hu Hin. unfold winkler_score, interval_width.
  rewrite broadcast2_same_length by lia. simpl.
  rewrite (winkler_loop_inside actual lower upper alpha Hl Hu (length actual) 0%nat);
    [done|lia|by rewrite length_replicate|done|].
  intros i Hi. apply Hin. lia.
Qed.

Lemma winkler_score_inside_witness :
  winkler_score (λ _, Ok 0%Z) (FloatArray [1; 5; 3]) [0; 5; 2] [2; 6.3; 3] 0
  = interval_width [0; 5; 2] [2; 6.3; 3].
Proof.
  apply (winkler_score_inside (λ _, Ok 0%Z) [1; 5; 3] [0; 5; 2] [2; 6.3; 3] 0);
    [done|done|].
  intros [|[|[|i]]] Hi; [reflexivity..|simpl in Hi; lia].
Defined.

(** X21. With [alpha = 0] and [float64] arrays of one length,
    [winkler_score] raises [ZeroDivisionError] as soon as one observation
    lies outside its interval. *)
Theorem winkler_score_alpha_zero store_int64 actual lower upper alpha j :
  length lower = length actual → length upper = length actual →
  (alpha =? 0) = true →
  (j < length actual)%nat → outside actual lower upper j = true →
  winkler_score store_int64 (FloatArray actual) lower upper alpha = Raise zero_division.
Proof.
  intros Hl Hu Hz Hj Hout. unfold winkler_score.
  rewrite broadcast2_same_length by lia. simpl.
  by rewrite (winkler_loop_outside actual lower upper alpha Hl Hu (length actual) 0%nat _ j)
    by (done || lia).
Qed.

Lemma winkler_score_alpha_zero_witness :
  winkler_score (λ _, Ok 0%Z) (FloatArray [1; 7; 3]) [0; 5; 2] [2; 6; 3] (-0)
  = Raise zero_division.
Proof.
  apply (winkler_score_alpha_zero (λ _, Ok 0%Z) [1; 7; 3] [0; 5; 2] [2; 6; 3] (-0) 1);
    [done|done|reflexivity|simpl; lia|reflexivity].
Defined.

End IntervalScores.

(** ** Profit factor and position sizing *)

Section SizersAndProfit.
Import Metrics Sizers.
Local Open Scope float_scope.

Lemma filter_dropna (P : float → Prop) `{!∀ x, Decision (P x)} xs :
  (∀ x, P x → is_nan x = false) →
  filter P (Np.dropna xs) = filter P xs.
Proof.
  intros HP. unfold Np.dropna. induction xs as [|x xs IH]; [done|].
  destruct (decide (P x)) as [Hx|Hx].
  - rewrite (filter_cons_True (λ x, is_nan x = false)) by by apply HP.
    by rewrite !(filter_cons_True P), IH by done.
  - rewrite (filter_cons_False P _ _ Hx).
    destruct (decide (is_nan x = false)).
    + rewrite (filter_cons_True (λ x, is_nan x = false)) by done.
      by rewrite (filter_cons_False P) by done.
    + by rewrite (filter_cons_False (λ x, is_nan x = false)) by done.
Qed.

(** X22. [profit_factor] ignores NaN returns: dropping them first does not
    change the result. *)
Theorem profit_factor_ignores_nan returns :
  profit_factor (Np.dropna returns) = profit_factor returns.
Proof.
  unfold profit_factor. rewrite !filter_dropna; [done| |].
  - intros x Hx. float_keys. by apply is_nan_false.
  - intros x Hx. float_keys. by apply is_nan_false.
Qed.

Lemma mul_zero_return_r m z : is_zero_return z → is_zero_return (m * z) ∨ m * z = nan.
Proof.
  intros (s & Hz)%zero_return_sf.
  pose proof (FloatAxioms.mul_spec m z) as Hmul. rewrite Hz in Hmul.
  destruct (Prim2SF m) as [sm|sm| |sm mm em] eqn:Hm; simpl in Hmul.
  - left. by eapply sf_zero_inv.
  - right. apply Prim2SF_inj. by rewrite Hmul.
  - right. apply Prim2SF_inj. by rewrite Hmul.
  - left. by eapply sf_zero_inv.
Qed.

Lemma sign_zero_return z : is_zero_return z → sign z = 0.
Proof. by intros [->| ->]. Qed.

(** X23. With [max_leverage >= 0], whatever [kelly_position_sizer] returns
    is NaN or within [-max_leverage, max_leverage]. *)
Theorem kelly_position_bounded pow signal predicted_return predicted_std
    risk_free_rate max_leverage fraction r :
  (0 <=? max_leverage) = true →
  kelly_position_sizer pow signal predicted_return predicted_std
    risk_free_rate max_leverage fraction = Ok r →
  is_nan r = true ∨ (abs r <=? max_leverage) = true.
Proof.
  intros Hm Hrun. unfold kelly_position_sizer in Hrun.
  destruct (predicted_std <? 1e-10); [injection Hrun as <-; by right|].
  destruct (pow predicted_std 2) as [sq|e]; simpl in Hrun; [|done].
  destruct (sq =? 0); [done|]. injection Hrun as <-.
  destruct (is_nan (Np.clip _ _ _)) eqn:Hn; [by left|right].
  apply clip_abs_le; [done|by apply is_nan_false].
Qed.

Lemma kelly_position_bounded_witness :
  is_nan 1 = true ∨ (abs 1 <=? 1) = true.
Proof.
  apply (kelly_position_bounded (λ x _, Ok (x * x)) 1 0.5 0.2 0 1 0.5 1);
    [reflexivity|reflexivity].
Defined.

(** X24. For a zero signal and [max_leverage >= 0], whatever
    [kelly_position_sizer] returns is a zero or NaN: no position is taken
    without a direction. *)
Theorem kelly_position_zero_signal pow signal predicted_return predicted_std
    risk_free_rate max_leverage fraction r :
  is_zero_return signal →
  (0 <=? max_leverage) = true →
  kelly_position_sizer pow signal predicted_return predicted_std
    risk_free_rate max_leverage fraction = Ok r →
  is_zero_return r ∨ is_nan r = true.
Proof.
  intros Hs Hm Hrun. unfold kelly_position_sizer in Hrun.
  destruct (predicted_std <? 1e-10); [injection Hrun as <-; by left; left|].
  destruct (pow predicted_std 2) as [sq|e]; simpl in Hrun; [|done].
  destruct (sq =? 0); [done|]. injection Hrun as <-.
  rewrite (sign_zero_return _ Hs).
  destruct (mul_zero_return_r ((predicted_return - risk_free_rate) / sq * fraction) 0)
    as [Hz| ->]; [by left| |].
  - left. by apply clip_zero_return.
  - right. by rewrite clip_nan.
Qed.

Lemma kelly_position_zero_signal_witness :
  is_zero_return 0 ∨ is_nan 0 = true.
Proof.
  apply (kelly_position_zero_signal (λ x _, Ok (x * x)) (-0) 0.5 0.2 0 1 0.5 0);
    [by right|reflexivity|reflexivity].
Defined.

End SizersAndProfit.
